(** * chimedb.cfm: the file reservation manager

    A shallow embedding of [chimedb/cfm/tags.py] and [chimedb/cfm/api.py]:
    the reservation ledger tables, the [FileManager] class and the
    peewee/pathlib operations its methods call, followed by the properties
    of the reservation logic.

    Conventions of the embedding:
    - a table is the list of its rows, in storage order; a foreign key
      holds the primary key of the row it refers to;
    - a method that reads the database takes it as an argument; a method
      that writes it runs in the monad [M], which threads the database
      and carries the raised exception, if any;
    - Python exceptions are values of [exn]. *)

From Stdlib Require Import String Ascii List ZArith Bool Arith Lia.
Import ListNotations.
Open Scope string_scope.
Open Scope list_scope.

(** ** Exceptions and results *)

Inductive exn : Type :=
| ValueError_no_tag
    (* ValueError("no tag in use") *)
| ValueError_not_relative (path_parts root_parts : list string)
    (* raised by pathlib's relative_to *)
| ValueError_path_elements (elements : list string)
    (* ValueError(f"Expected two path elements, but got: {file}") *)
| ValueError_no_such_file (acq name : string)
    (* ValueError(f"No such file: {file[0]}/{file[1]}") *)
| TypeError_source
    (* TypeError("expected StorageNode or StorageGroup") *)
| AttributeError (object attribute : string)
| DoesNotExist (model : string)
| IntegrityError (table column : string)
| OperationalError (statement : string).

Inductive result (A : Type) : Type :=
| Ok (a : A)
| Raise (e : exn).
Arguments Ok {A} a.
Arguments Raise {A} e.

Definition rbind {A B} (r : result A) (k : A -> result B) : result B :=
  match r with
  | Ok a => k a
  | Raise e => Raise e
  end.

(** ** Tables (chimedb.data_index and tags.py) *)

Record StorageGroup := mkGroup {
  group_id : nat;
  group_name : string }.

Record StorageNode := mkNode {
  node_id : nat;
  node_name : string;
  node_group : nat;          (* foreign key to StorageGroup *)
  node_root : string }.

Record ArchiveAcq := mkAcq {
  acq_id : nat;
  acq_name : string }.

Record ArchiveFile := mkFile {
  file_id : nat;
  file_acq : nat;            (* foreign key to ArchiveAcq *)
  file_name : string;
  size_b : Z }.

Record ArchiveFileCopy := mkCopy {
  copy_file : nat;           (* foreign key to ArchiveFile *)
  copy_node : nat;           (* foreign key to StorageNode *)
  has_file : string }.       (* "Y", "M", "X" or "N" *)

Record ArchiveFileCopyRequest := mkRequest {
  req_file : nat;
  req_group_to : nat;
  req_node_from : nat;
  req_nice : Z;
  req_cancelled : bool;
  req_completed : bool;
  req_n_requests : Z;
  req_timestamp : Z }.

(* tags.py: FileReservationTag *)
Record FileReservationTag := mkTag {
  tag_id : nat;
  tag_name : string;
  tag_creator : string;
  tag_creation_time : Z;
  tag_description : option string }.

(* tags.py: FileReservation.  The three foreign keys are declared without
   null=True, so the columns are NOT NULL. *)
Record FileReservation := mkReservation {
  res_file : nat;
  res_node : nat;
  res_tag : nat }.

Record Database := mkDatabase {
  groups : list StorageGroup;
  nodes : list StorageNode;
  acqs : list ArchiveAcq;
  files : list ArchiveFile;
  copies : list ArchiveFileCopy;
  requests : list ArchiveFileCopyRequest;
  tags : list FileReservationTag;
  reservations : list FileReservation }.

Definition with_reservations (db : Database) (rs : list FileReservation) : Database :=
  mkDatabase (groups db) (nodes db) (acqs db) (files db) (copies db)
             (requests db) (tags db) rs.

Definition with_requests (db : Database) (qs : list ArchiveFileCopyRequest) : Database :=
  mkDatabase (groups db) (nodes db) (acqs db) (files db) (copies db)
             qs (tags db) (reservations db).

(** ** The database monad *)

Definition M (A : Type) : Type := Database -> Database * result A.

Definition ret {A} (a : A) : M A := fun db => (db, Ok a).

Definition throw {A} (e : exn) : M A := fun db => (db, Raise e).

Definition bind {A B} (c : M A) (k : A -> M B) : M B :=
  fun db =>
    match c db with
    | (db', Ok a) => k a db'
    | (db', Raise e) => (db', Raise e)
    end.

(* a query: reads the database, leaves it as it is *)
Definition query {A} (q : Database -> result A) : M A := fun db => (db, q db).

Notation "x <- c ;; k" := (bind c (fun x => k))
  (at level 61, c at next level, right associativity).
Notation "c ;;; k" := (bind c (fun _ => k))
  (at level 61, right associativity).

(** ** peewee *)

(* The attributes of the peewee module that api.py refers to as [pw.X].
   peewee defines DoesNotExist and IntegrityError; it defines neither
   NotFoundError (that name belongs to chimedb.core) nor SUM (peewee's
   aggregate is [pw.fn.SUM]). *)
Definition pw_module : list string :=
  ["DoesNotExist"; "IntegrityError"; "fn"; "Model"; "CharField";
   "DateTimeField"; "TextField"; "ForeignKeyField"].

Definition pw_hasattr (name : string) : bool :=
  existsb (String.eqb name) pw_module.

(* isinstance(e, pw.<cls>), for the exception classes of [pw_module] *)
Definition pw_isinstance (e : exn) (cls : string) : bool :=
  match e with
  | DoesNotExist _ => cls =? "DoesNotExist"
  | IntegrityError _ _ => cls =? "IntegrityError"
  | _ => false
  end.

(* try: body / except pw.<cls>: handler.  The expression [pw.<cls>] is
   evaluated when an exception reaches the clause; if the module has no
   such attribute that evaluation raises AttributeError. *)
Definition try_except_pw {A} (body : result A) (cls : string)
           (handler : result A) : result A :=
  match body with
  | Ok a => Ok a
  | Raise e =>
      if pw_hasattr cls
      then (if pw_isinstance e cls then handler else Raise e)
      else Raise (AttributeError "module 'peewee'" cls)
  end.

(* Model.get(...): the first row satisfying the conditions *)
Definition get {R} (model : string) (cond : R -> bool) (table : list R) : result R :=
  match find cond table with
  | Some r => Ok r
  | None => Raise (DoesNotExist model)
  end.

(* FileReservation.create(file=, node=, tag=) *)
Definition FileReservation_create (file node : nat) (tag : option nat) : M unit :=
  fun db =>
    match tag with
    | Some t =>
        (with_reservations db (reservations db ++ [mkReservation file node t]), Ok tt)
    | None => (db, Raise (IntegrityError "filereservation" "tag_id"))
    end.

Definition request_matches (q k : ArchiveFileCopyRequest) : bool :=
  (req_file q =? req_file k)%nat && (req_group_to q =? req_group_to k)%nat &&
  (req_node_from q =? req_node_from k)%nat && (req_nice q =? req_nice k)%Z &&
  Bool.eqb (req_cancelled q) (req_cancelled k) &&
  Bool.eqb (req_completed q) (req_completed k) &&
  (req_n_requests q =? req_n_requests k)%Z &&
  (req_timestamp q =? req_timestamp k)%Z.

(* ArchiveFileCopyRequest.get_or_create with keyword arguments: the row
   found with all the given field values, or a new row; the flag tells
   which *)
Definition ArchiveFileCopyRequest_get_or_create (k : ArchiveFileCopyRequest)
  : M (ArchiveFileCopyRequest * bool) :=
  fun db =>
    match find (fun q => request_matches q k) (requests db) with
    | Some q => (db, Ok (q, false))
    | None => (with_requests db (requests db ++ [k]), Ok (k, true))
    end.

(** ** pathlib (PurePosixPath) *)

Record Path := mkPath {
  anchor : string;           (* the root: empty, "/" or "//" *)
  names : list string }.

(* Path.parts *)
Definition parts (p : Path) : list string :=
  if anchor p =? "" then names p else anchor p :: names p.

Fixpoint split_sep (s cur : string) : list string :=
  match s with
  | EmptyString => [cur]
  | String c s' =>
      if Ascii.eqb c "/"%char then cur :: split_sep s' ""
      else split_sep s' (cur ++ String c "")
  end.

Fixpoint leading_seps (s : string) : nat :=
  match s with
  | String c s' => if Ascii.eqb c "/"%char then S (leading_seps s') else 0
  | EmptyString => 0
  end.

(* pathlib.Path(s): empty and "." components are dropped; exactly two
   leading slashes make the root "//", any other number the root "/" *)
Definition Path_of_string (s : string) : Path :=
  mkPath (match leading_seps s with
          | 0 => ""
          | 2 => "//"
          | _ => "/"
          end)
         (filter (fun n => negb ((n =? "") || (n =? "."))) (split_sep s "")).

(* Path.is_absolute, a method: it has to be called to give its answer *)
Definition is_absolute (p : Path) : unit -> bool :=
  fun _ => negb (anchor p =? "").

(* the truth value of a bound method object, as in [if file.is_absolute:] *)
Definition bool_of_method {A} (method : unit -> A) : bool := true.

Fixpoint list_eqb (a b : list string) : bool :=
  match a, b with
  | [], [] => true
  | x :: a', y :: b' => (x =? y) && list_eqb a' b'
  | _, _ => false
  end.

(* Path.relative_to(other) *)
Definition relative_to (p other : Path) : result Path :=
  let n := length (parts other) in
  if (if (n =? 0)%nat then negb (anchor p =? "")
      else negb (list_eqb (firstn n (parts p)) (parts other)))
  then Raise (ValueError_not_relative (parts p) (parts other))
  else Ok (mkPath "" (skipn n (parts p))).

(** ** api.py: CopyState *)

(* enum.Flag: the members are the bits 1, 2, 4, 8 of an integer *)
Definition CopyState := Z.
Definition PRESENT : CopyState := 1%Z.
Definition AVAILABLE : CopyState := 2%Z.
Definition RESERVED : CopyState := 4%Z.
Definition RECALLED : CopyState := 8%Z.

(* [flag in state] *)
Definition flag_in (flag state : CopyState) : bool :=
  (Z.land state flag =? flag)%Z.

(** ** api.py: FileManager *)

Record FileManager := mkManager {
  _node : StorageNode;
  _sources : list StorageNode;
  _tag : option FileReservationTag }.

(* FileManager.__init__ *)
Definition FileManager_init (node : StorageNode) : FileManager :=
  mkManager node [] None.

Inductive SourceArg : Type :=
| IsNode (n : StorageNode)
| IsGroup (g : StorageGroup)
| IsOther.

Definition append_source (self : FileManager) (n : StorageNode) : FileManager :=
  mkManager (_node self) (_sources self ++ [n]) (_tag self).

Definition add_source (self : FileManager) (src : SourceArg) (db : Database)
  : result FileManager :=
  match src with
  | IsGroup g =>
      Ok (fold_left append_source
            (filter (fun n => (node_group n =? group_id g)%nat) (nodes db)) self)
  | IsNode n => Ok (append_source self n)
  | IsOther => Raise TypeError_source
  end.

Inductive TagArg : Type :=
| TagRecord (t : FileReservationTag)
| TagName (name : string).

Definition use_tag (self : FileManager) (tag : TagArg) (db : Database)
  : result FileManager :=
  rbind (match tag with
         | TagRecord t => Ok t
         | TagName name =>
             get "FileReservationTag" (fun t => tag_name t =? name) (tags db)
         end)
        (fun t => Ok (mkManager (_node self) (_sources self) (Some t))).

(* truth value of a list-or-None argument *)
Definition truthy {A} (l : option (list A)) : bool :=
  match l with
  | Some (_ :: _) => true
  | _ => false
  end.

Definition _autotags (self : FileManager) (tags : option (list FileReservationTag))
  : result (list FileReservationTag) :=
  if truthy tags then Ok (match tags with Some l => l | None => [] end)
  else match _tag self with
       | None => Raise ValueError_no_tag
       | Some t => Ok [t]
       end.

(* [FileReservation.tag << tags] *)
Definition tag_in (tags : list FileReservationTag) (r : FileReservation) : bool :=
  existsb (fun t => (tag_id t =? res_tag r)%nat) tags.

(* ArchiveFile.select(ArchiveFile).join(FileReservation).where(...): one row
   for each pair of a file and a reservation of that file satisfying the
   condition; the row is the file. *)
Definition all_reserved_files (self : FileManager)
           (tags : option (list FileReservationTag)) (db : Database)
  : result (list ArchiveFile) :=
  rbind (_autotags self tags) (fun tags =>
  Ok (flat_map
        (fun f =>
           map (fun _ => f)
               (filter (fun r => (res_file r =? file_id f)%nat &&
                                 (res_node r =? node_id (_node self))%nat &&
                                 tag_in tags r)
                       (reservations db)))
        (files db))).

(* The query is written [ArchiveFile(pw.SUM(ArchiveFile.size_b)).join(...)]:
   the argument [pw.SUM] is evaluated first; were it there, the call
   [ArchiveFile(...)] would build a model instance, which has no [join]. *)
Definition reserved_size (self : FileManager)
           (tags : option (list FileReservationTag)) (db : Database)
  : result (option Z) :=
  rbind (_autotags self tags) (fun tags =>
  if pw_hasattr "SUM"
  then Raise (AttributeError "'ArchiveFile' object" "join")
  else Raise (AttributeError "module 'peewee'" "SUM")).

(** *** File specifications *)

Inductive FileSpec : Type :=
| SpecStr (s : string)
| SpecPath (p : Path)
| SpecTuple (t : list string)
| SpecFile (f : ArchiveFile).

(* a single specification, or a list of them *)
Inductive FilesArg : Type :=
| One (file : FileSpec)
| Many (files : list FileSpec).

(* ArchiveFile.select().join(ArchiveAcq).where(ArchiveAcq.name == acq,
   ArchiveFile.name == name) *)
Definition file_named (db : Database) (acq name : string) (f : ArchiveFile) : bool :=
  existsb (fun a => (acq_id a =? file_acq f)%nat && (acq_name a =? acq)) (acqs db)
  && (file_name f =? name).

(* Convert pathlib to 2-tuple.  [file.is_absolute] is not called: the
   condition is the truth value of the method itself. *)
Definition path_to_tuple (self : FileManager) (file : Path) : result (list string) :=
  rbind (if bool_of_method (is_absolute file)
         then relative_to file (Path_of_string (node_root (_node self)))
         else Ok file)
        (fun file => Ok (parts file)).

(* Look-up ArchiveFile from 2-tuple *)
Definition tuple_to_file (db : Database) (file : list string) : result ArchiveFile :=
  if negb (length file =? 2)%nat then Raise (ValueError_path_elements file)
  else
    let acq := nth 0 file "" in
    let name := nth 1 file "" in
    try_except_pw (get "ArchiveFile" (file_named db acq name) (files db))
                  "NotFoundError"
                  (Raise (ValueError_no_such_file acq name)).

(* the body of the loop of _fixup_filespec: the type cascade
   str -> pathlib -> 2-tuple -> ArchiveFile *)
Definition fixup_one (self : FileManager) (db : Database) (file : FileSpec)
  : result ArchiveFile :=
  match file with
  | SpecStr s =>
      rbind (path_to_tuple self (Path_of_string s)) (tuple_to_file db)
  | SpecPath p =>
      rbind (path_to_tuple self p) (tuple_to_file db)
  | SpecTuple t => tuple_to_file db t
  | SpecFile f => Ok f
  end.

Fixpoint fixup_loop (self : FileManager) (db : Database) (files : list FileSpec)
         (files_out : list ArchiveFile) : result (list ArchiveFile) :=
  match files with
  | [] => Ok files_out
  | file :: rest =>
      rbind (fixup_one self db file)
            (fun f => fixup_loop self db rest (files_out ++ [f]))
  end.

Definition _fixup_filespec (self : FileManager) (files : FilesArg) (db : Database)
  : result (list ArchiveFile) :=
  let files := match files with
               | One file => [file]
               | Many l => l
               end in
  fixup_loop self db files [].

(** *** Per-file state *)

Definition copy_on (file : ArchiveFile) (on_node : nat -> bool) (c : ArchiveFileCopy) : bool :=
  (copy_file c =? file_id file)%nat && on_node (copy_node c) && (has_file c =? "Y").

(* [ArchiveFileCopy.node << self._sources] *)
Definition in_sources (self : FileManager) (n : nat) : bool :=
  existsb (fun s => (node_id s =? n)%nat) (_sources self).

(* FileReservation.file == file, FileReservation.tag == self._tag,
   FileReservation.node == self._node.  Comparing with None is IS NULL,
   which no row of a NOT NULL column satisfies. *)
Definition reserved_by (self : FileManager) (file : ArchiveFile) (r : FileReservation) : bool :=
  (res_file r =? file_id file)%nat &&
  match _tag self with
  | Some t => (res_tag r =? tag_id t)%nat
  | None => false
  end &&
  (res_node r =? node_id (_node self))%nat.

Definition _filecopy_state (self : FileManager) (db : Database) (file : ArchiveFile)
  : result (CopyState * option nat) :=
  let state := 0%Z in
  let source := None in
  (* Is it on the destination? *)
  rbind (try_except_pw
           (rbind (get "ArchiveFileCopy"
                       (copy_on file (fun n => (n =? node_id (_node self))%nat))
                       (copies db))
                  (fun _ => Ok (Z.lor state PRESENT)))
           "DoesNotExist" (Ok state)) (fun state =>
  (* Is it on at least one of the sources?  If so, remember which one *)
  rbind (try_except_pw
           (rbind (get "ArchiveFileCopy" (copy_on file (in_sources self)) (copies db))
                  (fun copy => Ok (Z.lor state AVAILABLE, Some (copy_node copy))))
           "DoesNotExist" (Ok (state, source))) (fun st_src =>
  let state := fst st_src in
  let source := snd st_src in
  (* Is it reserved? *)
  rbind (try_except_pw
           (rbind (get "FileReservation" (reserved_by self file) (reservations db))
                  (fun _ => Ok (Z.lor state RESERVED)))
           "DoesNotExist" (Ok state)) (fun state =>
  Ok (state, source)))).

(** *** reserve *)

(* the dict [states], keyed by file (a model instance hashes and compares
   by primary key); insertion order is kept *)
Definition States := list (ArchiveFile * CopyState).

Fixpoint dict_set (d : States) (file : ArchiveFile) (state : CopyState) : States :=
  match d with
  | [] => [(file, state)]
  | (k, v) :: d' =>
      if (file_id k =? file_id file)%nat then (k, state) :: d'
      else (k, v) :: dict_set d' file state
  end.

(* the keyword arguments of the get_or_create call of reserve *)
Definition recall_request (self : FileManager) (file : ArchiveFile) (source : nat)
  : ArchiveFileCopyRequest :=
  mkRequest (file_id file) (node_group (_node self)) source 0 false false 0 0.

(* one iteration of the loop over [files] *)
Definition reserve_step (self : FileManager) (check_only : bool)
           (acc : bool * States) (file : ArchiveFile) : M (bool * States) :=
  let result := fst acc in
  let states := snd acc in
  (* Get current state *)
  st_src <- query (fun db => _filecopy_state self db file) ;;
  let state := fst st_src in
  let source := snd st_src in
  (* Update result *)
  let result := if result && negb (flag_in PRESENT state) then false else result in
  (* Skip all this if we're only checking *)
  state <- (if negb check_only then
              (* Reserve the file *)
              (if negb (flag_in RESERVED state)
               then FileReservation_create (file_id file) (node_id (_node self))
                                           (option_map tag_id (_tag self))
               else ret tt) ;;;
              (* Recall the file *)
              (if (Z.land state (Z.lor PRESENT AVAILABLE) =? AVAILABLE)%Z
               then
                 match source with
                 | Some src =>
                     r <- ArchiveFileCopyRequest_get_or_create
                            (recall_request self file src) ;;
                     ret (if snd r then Z.lor state RECALLED else state)
                 | None =>
                     (* not reached: AVAILABLE is set together with source *)
                     throw (IntegrityError "archivefilecopyrequest" "node_from_id")
                 end
               else ret state)
            else ret state) ;;
  (* Remember *)
  ret (result, dict_set states file state).

Fixpoint for_each {A B} (body : A -> B -> M A) (acc : A) (l : list B) : M A :=
  match l with
  | [] => ret acc
  | x :: l' => acc' <- body acc x ;; for_each body acc' l'
  end.

(* Descriptions of states *)
Definition _state_name (state : CopyState) (check_only : bool) : string :=
  let name := if flag_in RESERVED state then "Previously reserved"
              else if check_only then "Unreserved"
              else "Newly reserved" in
  if flag_in PRESENT state then name ++ ", present"
  else if flag_in RECALLED state then name ++ ", recalling"
  else if flag_in AVAILABLE state then name ++ ", available"
  else name ++ ", missing".

(* defaultdict(int): [d[key] += v] and [d[key]] *)
Fixpoint defaultdict_add (d : list (string * Z)) (key : string) (v : Z)
  : list (string * Z) :=
  match d with
  | [] => [(key, (0 + v)%Z)]
  | (k, x) :: d' =>
      if k =? key then (k, (x + v)%Z) :: d'
      else (k, x) :: defaultdict_add d' key v
  end.

Definition defaultdict_get (d : list (string * Z)) (key : string) : Z :=
  match find (fun kv => fst kv =? key) d with
  | Some kv => snd kv
  | None => 0%Z
  end.

(* The rows of the table printed in verbose mode: state, number of files
   and total bytes (printed divided by 1e9, as GB). *)
Definition Table := list (string * Z * Z).

Definition table_data (states : States) (check_only : bool) : Table :=
  let totals :=
    fold_left (fun tot fs =>
                 let name := _state_name (snd fs) check_only in
                 (defaultdict_add (fst tot) name 1,
                  defaultdict_add (snd tot) name (size_b (fst fs))))
              states ([], []) in
  map (fun kv => (fst kv, snd kv, defaultdict_get (snd totals) (fst kv)))
      (fst totals).

(* what a call of reserve gives: its return value and what it printed *)
Record Outcome := mkOutcome {
  returned : bool;
  printed : option Table }.

Definition reserve (self : FileManager) (files : FilesArg)
           (check_only verbose : bool) : M Outcome :=
  files <- query (_fixup_filespec self files) ;;
  let result := true in
  let states : States := [] in
  acc <- for_each (reserve_step self check_only) (result, states) files ;;
  ret (mkOutcome (fst acc)
                 (if verbose then Some (table_data (snd acc) check_only) else None)).

Definition is_reserved (self : FileManager) (file : FilesArg) : M Outcome :=
  reserve self file true false.


(** ** tags.py: FileReservation.reserved_in_node *)

Section ReservedInNode.

(* The condition of the query is [FileReservation.node == StorageNode]:
   the column is compared with the model class, not with the argument
   [node].  What the backend makes of that comparison is left open: it
   rejects the statement ([None]), or gives a truth value for the node
   column of each row. *)
Variable node_eq_class_StorageNode : option (nat -> bool).

Definition reserved_in_node (file : ArchiveFile) (node : StorageNode)
           (db : Database) : result (list nat) :=
  match node_eq_class_StorageNode with
  | None => Raise (OperationalError "FileReservation.node == StorageNode")
  | Some node_eq =>
      Ok (map res_tag
              (filter (fun rec => (res_file rec =? file_id file)%nat &&
                                  node_eq (res_node rec))
                      (reservations db)))
  end.

End ReservedInNode.

(* The query as the ledger describes it: the tags of the reservation
   records whose file is [file] and whose node is [node]. *)
Definition tags_reserving (file : ArchiveFile) (node : StorageNode)
           (db : Database) : list nat :=
  map res_tag
      (filter (fun r => (res_file r =? file_id file)%nat &&
                        (res_node r =? node_id node)%nat)
              (reservations db)).

(** ** The data of tests/conftest.py *)

Module Fixture.

Definition test_group := mkGroup 1 "test_group".
Definition cedar_nearline := mkGroup 2 "cedar_nearline".
Definition cedar_online := mkNode 1 "cedar_online" 1 "/test".
Definition src1 := mkNode 2 "src1" 2 "/src1".
Definition src2 := mkNode 3 "src2" 2 "/src2".
Definition src3 := mkNode 4 "src3" 2 "/src3".
Definition acq := mkAcq 1 "acqpath".
Definition file0 := mkFile 1 1 "file0" 123456789.
Definition file1 := mkFile 2 1 "file1" 123456789.
Definition file2 := mkFile 3 1 "file2" 123456789.
Definition file3 := mkFile 4 1 "file3" 123456789.
Definition file4 := mkFile 5 1 "file4" 123456789.
Definition tag1 := mkTag 1 "tag1" "" 0 None.
Definition tag2 := mkTag 2 "tag2" "" 0 None.

(* The reservation of file0 that the fixture builds is never saved, so
   the table of reservations starts empty. *)
Definition test_data : Database :=
  mkDatabase
    [test_group; cedar_nearline]
    [cedar_online; src1; src2; src3]
    [acq]
    [file0; file1; file2; file3; file4]
    [mkCopy 1 1 "Y";
     mkCopy 2 1 "Y"; mkCopy 2 2 "Y";
     mkCopy 3 2 "Y";
     mkCopy 4 2 "Y"; mkCopy 4 3 "Y"; mkCopy 4 4 "Y"]
    []
    [tag1; tag2]
    [].

(* CedarManager(tag=tag1) and a manager that was given no tag *)
Definition cedar : FileManager :=
  mkManager cedar_online [src1; src2; src3] (Some tag1).

Definition cedar_no_tag : FileManager :=
  mkManager cedar_online [src1; src2; src3] None.

End Fixture.

(** * Notions used in the statements *)

(* PRESENT: a copy record of the file on the destination node with the
   has-flag set *)
Definition has_copy_on_destination (self : FileManager) (db : Database)
           (file : ArchiveFile) : bool :=
  existsb (copy_on file (fun n => (n =? node_id (_node self))%nat)) (copies db).

(* AVAILABLE, with the source that is chosen: the node of the first such
   copy record, in the order of the table of copies *)
Definition chosen_source (self : FileManager) (db : Database)
           (file : ArchiveFile) : option nat :=
  option_map copy_node (find (copy_on file (in_sources self)) (copies db)).

(* RESERVED: a reservation record for the file, the destination node and
   the tag in use *)
Definition has_reservation (self : FileManager) (db : Database)
           (file : ArchiveFile) : bool :=
  existsb (reserved_by self file) (reservations db).

Definition flags (present available reserved : bool) : CopyState :=
  Z.lor (Z.lor (if present then PRESENT else 0%Z)
               (if available then AVAILABLE else 0%Z))
        (if reserved then RESERVED else 0%Z).

Definition is_some {A} (o : option A) : bool :=
  match o with
  | Some _ => true
  | None => false
  end.

(* the request table after the recall step for [file] from [src] *)
Definition recall (self : FileManager) (file : ArchiveFile) (src : nat)
           (db : Database) : Database :=
  if is_some (find (fun q => request_matches q (recall_request self file src))
                   (requests db))
  then db
  else with_requests db (requests db ++ [recall_request self file src]).

(* the database after the iteration for [file], under tag [t] *)
Definition reserve_effect (self : FileManager) (t : FileReservationTag)
           (file : ArchiveFile) (db : Database) : Database :=
  let db1 :=
    if has_reservation self db file then db
    else with_reservations db
           (reservations db ++
            [mkReservation (file_id file) (node_id (_node self)) (tag_id t)]) in
  match chosen_source self db file with
  | Some src =>
      if has_copy_on_destination self db file then db1
      else recall self file src db1
  | None => db1
  end.

(* the state that the iteration remembers for [file] *)
Definition remembered_state (self : FileManager) (check_only : bool)
           (file : ArchiveFile) (db : Database) : CopyState :=
  let state := flags (has_copy_on_destination self db file)
                     (is_some (chosen_source self db file))
                     (has_reservation self db file) in
  match chosen_source self db file with
  | Some src =>
      if negb check_only && negb (has_copy_on_destination self db file) &&
         negb (is_some (find (fun q => request_matches q (recall_request self file src))
                             (requests db)))
      then Z.lor state RECALLED
      else state
  | None => state
  end.

(* [db'] has the acquisitions, files and copies of [db], and its
   reservations and requests with further rows appended *)
Definition extends (db db' : Database) : Prop :=
  acqs db' = acqs db /\
  files db' = files db /\
  copies db' = copies db /\
  (exists rs, reservations db' = reservations db ++ rs) /\
  (exists qs, requests db' = requests db ++ qs).

Definition has_request (self : FileManager) (file : ArchiveFile) (src : nat)
           (db : Database) : bool :=
  existsb (fun q => request_matches q (recall_request self file src)) (requests db).

(* nothing is left to do for [file]: it is reserved, and its recall, if
   one is due, has been requested *)
Definition settled (self : FileManager) (db : Database) (file : ArchiveFile) : bool :=
  has_reservation self db file &&
  (has_copy_on_destination self db file ||
   match chosen_source self db file with
   | Some src => has_request self file src db
   | None => true
   end).

(* the database after the iterations for [files], under tag [t] *)
Definition reserve_effects (self : FileManager) (t : FileReservationTag)
           (files : list ArchiveFile) (db : Database) : Database :=
  fold_left (fun db file => reserve_effect self t file db) files db.

Definition has_key (states : States) (file : ArchiveFile) : bool :=
  existsb (fun kv => (file_id (fst kv) =? file_id file)%nat) states.

(* PRESENT, in the words of the data model: there is a copy record of the
   file on the destination node with the has-flag set *)
Definition PRESENT_on_destination (self : FileManager) (db : Database)
           (file : ArchiveFile) : Prop :=
  exists c, In c (copies db) /\
            copy_file c = file_id file /\
            copy_node c = node_id (_node self) /\
            has_file c = "Y".

Definition reservations_of (file : ArchiveFile) (db : Database) : list FileReservation :=
  filter (fun r => (res_file r =? file_id file)%nat) (reservations db).

Definition requests_of (file : ArchiveFile) (db : Database)
  : list ArchiveFileCopyRequest :=
  filter (fun q => (req_file q =? file_id file)%nat) (requests db).

(* the rows that the iteration for [g] appends *)
Definition new_reservation (self : FileManager) (t : FileReservationTag)
           (g : ArchiveFile) (db : Database) : list FileReservation :=
  if has_reservation self db g then []
  else [mkReservation (file_id g) (node_id (_node self)) (tag_id t)].

Definition new_request (self : FileManager) (g : ArchiveFile) (db : Database)
  : list ArchiveFileCopyRequest :=
  match chosen_source self db g with
  | Some src =>
      if has_copy_on_destination self db g || has_request self g src db then []
      else [recall_request self g src]
  | None => []
  end.

(* a reservation, or a recall, is still due for [f] *)
Definition reservation_due (self : FileManager) (db : Database) (f : ArchiveFile) : bool :=
  negb (has_reservation self db f).

Definition recall_due (self : FileManager) (db : Database) (f : ArchiveFile) : bool :=
  match chosen_source self db f with
  | Some src => negb (has_copy_on_destination self db f || has_request self f src db)
  | None => false
  end.

Definition mentions (fl : list ArchiveFile) (f : ArchiveFile) : bool :=
  existsb (fun g => (file_id g =? file_id f)%nat) fl.

Definition one_if (b : bool) : nat := if b then 1 else 0.

(* the source nodes holding the file, one entry for each qualifying copy
   record *)
Definition sources_holding (self : FileManager) (db : Database)
           (file : ArchiveFile) : list nat :=
  map copy_node (filter (copy_on file (in_sources self)) (copies db)).

(* AVAILABLE on exactly one source node, [src] *)
Definition available_only_on (self : FileManager) (db : Database)
           (file : ArchiveFile) (src : nat) : bool :=
  match sources_holding self db file with
  | [] => false
  | l => forallb (Nat.eqb src) l
  end.

(* the reservation records on the destination node for the file, under one
   of the tags *)
Definition matching_reservations (self : FileManager)
           (tl : list FileReservationTag) (db : Database) (f : ArchiveFile)
  : list FileReservation :=
  filter (fun r => (res_file r =? file_id f)%nat &&
                   (res_node r =? node_id (_node self))%nat &&
                   tag_in tl r)
         (reservations db).

Definition occurrences (f : ArchiveFile) (l : list ArchiveFile) : nat :=
  length (filter (fun g => (file_id g =? file_id f)%nat) l).

Definition starts_with_sep (s : string) : bool :=
  match s with
  | String c _ => Ascii.eqb c "/"%char
  | EmptyString => false
  end.

(** ** Notions about the configuration of a manager *)

(* the nodes that add_source appends for [src] *)
Definition added_sources (src : SourceArg) (db : Database) : list StorageNode :=
  match src with
  | IsNode n => [n]
  | IsGroup g => filter (fun n => (node_group n =? group_id g)%nat) (nodes db)
  | IsOther => []
  end.

(** ** Notions about file specifications *)

(* [files] as the list that _fixup_filespec loops over *)
Definition listify (files : FilesArg) : list FileSpec :=
  match files with
  | One file => [file]
  | Many l => l
  end.

(* the destination root, as a path *)
Definition root_path (self : FileManager) : Path :=
  Path_of_string (node_root (_node self)).

(* [f] is a file of the table named [name] in an acquisition named [acq] *)
Definition file_is_named (db : Database) (acq name : string) (f : ArchiveFile) : Prop :=
  In f (files db) /\ file_name f = name /\
  exists a, In a (acqs db) /\ acq_id a = file_acq f /\ acq_name a = acq.

(* a path component as a string gives it: no separator in it, and neither
   empty nor a dot *)
Fixpoint no_sep (s : string) : bool :=
  match s with
  | EmptyString => true
  | String c s' => negb (Ascii.eqb c "/"%char) && no_sep s'
  end.

(* the string is made of separators only (or is empty) *)
Fixpoint only_seps (s : string) : bool :=
  match s with
  | EmptyString => true
  | String c s' => Ascii.eqb c "/"%char && only_seps s'
  end.

Definition plain_name (s : string) : bool :=
  no_sep s && negb (s =? "") && negb (s =? ".").

(** ** Notions about what reserve writes *)

(* [db'] is [db] with rows appended to the reservations and to the
   requests, and every other table as it was *)
Definition only_appends (db db' : Database) : Prop :=
  groups db' = groups db /\ nodes db' = nodes db /\ acqs db' = acqs db /\
  files db' = files db /\ copies db' = copies db /\ tags db' = tags db /\
  (exists rs, reservations db' = reservations db ++ rs) /\
  (exists qs, requests db' = requests db ++ qs).

(* the boolean returned, or the exception raised *)
Definition returned_or_raised (r : result Outcome) : result bool :=
  match r with
  | Ok out => Ok (returned out)
  | Raise e => Raise e
  end.

(* a reservation row as reserve writes it for the list [fl] under tag [t] *)
Definition reservation_of_call (self : FileManager) (t : FileReservationTag)
           (fl : list ArchiveFile) (r : FileReservation) : Prop :=
  res_node r = node_id (_node self) /\ res_tag r = tag_id t /\
  exists f, In f fl /\ res_file r = file_id f.

(* a request row as reserve writes it for the list [fl]: from a source
   holding the file to the group of the destination, for a file that the
   destination has not, with the neutral values *)
Definition request_of_call (self : FileManager) (db : Database)
           (fl : list ArchiveFile) (q : ArchiveFileCopyRequest) : Prop :=
  req_group_to q = node_group (_node self) /\
  in_sources self (req_node_from q) = true /\
  req_nice q = 0%Z /\ req_cancelled q = false /\ req_completed q = false /\
  req_n_requests q = 0%Z /\ req_timestamp q = 0%Z /\
  exists f, In f fl /\ req_file q = file_id f /\
            has_copy_on_destination self db f = false /\
            chosen_source self db f = Some (req_node_from q).

(** ** Notions about the report *)

(* the columns of the table: labels, numbers of files, bytes *)
Definition labels (T : Table) : list string := map (fun row => fst (fst row)) T.

Definition sum_files (T : Table) : Z :=
  fold_right Z.add 0%Z (map (fun row => snd (fst row)) T).

Definition sum_bytes (T : Table) : Z :=
  fold_right Z.add 0%Z (map snd T).

Definition sum_sizes (states : States) : Z :=
  fold_right Z.add 0%Z (map (fun fs => size_b (fst fs)) states).

(* the files of a list, each counted once *)
Definition distinct_files (fl : list ArchiveFile) : list nat :=
  nodup Nat.eq_dec (map file_id fl).

(* the label of the state remembered for a file, read off the tables *)
Definition label_prefix (self : FileManager) (check_only : bool)
           (db : Database) (f : ArchiveFile) : string :=
  if has_reservation self db f then "Previously reserved"
  else if check_only then "Unreserved"
  else "Newly reserved".

Definition label_suffix (self : FileManager) (check_only : bool)
           (db : Database) (f : ArchiveFile) : string :=
  if has_copy_on_destination self db f then ", present"
  else match chosen_source self db f with
       | Some src =>
           if check_only || has_request self f src db then ", available"
           else ", recalling"
       | None => ", missing"
       end.

(* the sum of the values of a defaultdict, and the keys of [states] *)
Definition sum_values (d : list (string * Z)) : Z :=
  fold_right Z.add 0%Z (map snd d).

Definition keys (states : States) : list nat :=
  map (fun kv => file_id (fst kv)) states.

(** ** cli.py: get_editor *)

(* os.environ *)
Definition Environ := string -> option string.

(* [needle in hay], on strings *)
Fixpoint str_in (needle hay : string) : bool :=
  match hay with
  | EmptyString => String.prefix needle hay
  | String _ hay' => String.prefix needle hay || str_in needle hay'
  end.

(* what a call of get_editor gives: the editor it returns, with what it
   wrote to the standard error before, or the message of context.fail *)
Inductive EditorOutcome : Type :=
| Returns (stderr : list string) (editor : string)
| Fails (message : string).

Definition dquote : string := String (ascii_of_nat 34) "".

(* os.environ.get("TERM", "dumb") has "dumb" in it *)
Definition terminal_is_dumb (environ : Environ) : bool :=
  let term := match environ "TERM" with
              | Some t => t
              | None => "dumb"
              end in
  str_in "dumb" term.

Definition get_editor (environ : Environ) : EditorOutcome :=
  match environ "CFM_EDITOR" with
  | Some editor => Returns [] editor
  | None =>
      (* the VISUAL editor only works on non-dumb terminals *)
      match (if negb (terminal_is_dumb environ) then environ "VISUAL" else None) with
      | Some editor => Returns [] editor
      | None =>
          (* the EDITOR works on all terminals *)
          match environ "EDITOR" with
          | Some editor => Returns [] editor
          | None =>
              if negb (terminal_is_dumb environ)
              then Returns ["No editor found.  Falling back to " ++ dquote ++
                            "vi" ++ dquote ++ "."]%string
                           "vi"
              else Fails "No editor found.  Specify one with environmental variable CFM_EDITOR or EDITOR."
          end
      end
  end.

(* the environment with the variable set, or unset *)
Definition setenv (environ : Environ) (name : string) (value : option string)
  : Environ :=
  fun n => if n =? name then value else environ n.

(** * Properties *)

(** ** The per-file state, read off the tables *)

Lemma existsb_find {A} (p : A -> bool) (l : list A) :
  existsb p l = is_some (find p l).
Proof.
  induction l as [|x l IH]; simpl; [reflexivity|].
  destruct (p x); simpl; [reflexivity | exact IH].
Qed.

Lemma _filecopy_state_eq (self : FileManager) (db : Database) (file : ArchiveFile) :
  _filecopy_state self db file =
  Ok (flags (has_copy_on_destination self db file)
            (is_some (chosen_source self db file))
            (has_reservation self db file),
      chosen_source self db file).
Proof.
  unfold _filecopy_state, has_copy_on_destination, chosen_source, has_reservation.
  rewrite !existsb_find. unfold get.
  destruct (find (copy_on file (fun n => (n =? node_id (_node self))%nat)) (copies db));
    destruct (find (copy_on file (in_sources self)) (copies db));
    destruct (find (reserved_by self file) (reservations db));
    reflexivity.
Qed.

Lemma flag_in_flags (p a r : bool) :
  flag_in PRESENT (flags p a r) = p /\
  flag_in AVAILABLE (flags p a r) = a /\
  flag_in RESERVED (flags p a r) = r /\
  flag_in RECALLED (flags p a r) = false /\
  (Z.land (flags p a r) (Z.lor PRESENT AVAILABLE) =? AVAILABLE)%Z = negb p && a.
Proof. destruct p, a, r; repeat split; reflexivity. Qed.

(* the three flags are read faithfully by _filecopy_state *)
Lemma _filecopy_state_flags (self : FileManager) (db : Database)
      (file : ArchiveFile) :
  exists state source,
    _filecopy_state self db file = Ok (state, source) /\
    flag_in PRESENT state = has_copy_on_destination self db file /\
    flag_in AVAILABLE state = is_some source /\
    flag_in RESERVED state = has_reservation self db file /\
    flag_in RECALLED state = false.
Proof.
  eexists _, _. split; [apply _filecopy_state_eq|].
  pose proof (flag_in_flags (has_copy_on_destination self db file)
                            (is_some (chosen_source self db file))
                            (has_reservation self db file)) as H.
  tauto.
Qed.

(** ** One iteration of reserve *)

Lemma reserve_step_check_only (self : FileManager) (result : bool)
      (states : States) (file : ArchiveFile) (db : Database) :
  reserve_step self true (result, states) file db =
  (db, Ok (result && has_copy_on_destination self db file,
           dict_set states file (remembered_state self true file db))).
Proof.
  unfold reserve_step, bind, query, ret, remembered_state.
  rewrite _filecopy_state_eq. cbn [fst snd negb andb].
  destruct (flag_in_flags (has_copy_on_destination self db file)
                          (is_some (chosen_source self db file))
                          (has_reservation self db file)) as (Hp & _).
  rewrite Hp.
  destruct (chosen_source self db file);
    destruct result, (has_copy_on_destination self db file); reflexivity.
Qed.

Lemma reserve_step_tagged (self : FileManager) (t : FileReservationTag)
      (result : bool) (states : States) (file : ArchiveFile) (db : Database) :
  _tag self = Some t ->
  reserve_step self false (result, states) file db =
  (reserve_effect self t file db,
   Ok (result && has_copy_on_destination self db file,
       dict_set states file (remembered_state self false file db))).
Proof.
  intros Ht.
  unfold reserve_step, bind, query, ret, remembered_state, reserve_effect,
    recall, FileReservation_create, ArchiveFileCopyRequest_get_or_create.
  rewrite _filecopy_state_eq, Ht. cbn [fst snd negb andb option_map].
  destruct (flag_in_flags (has_copy_on_destination self db file)
                          (is_some (chosen_source self db file))
                          (has_reservation self db file))
    as (Hp & _ & Hr & _ & Hrecall).
  rewrite Hp, Hr, Hrecall.
  destruct (chosen_source self db file) as [src|];
    destruct (has_copy_on_destination self db file);
    destruct (has_reservation self db file);
    destruct result; cbn [is_some negb andb fst snd requests with_reservations];
    try reflexivity;
    match goal with
    | |- context [find ?p ?l] => destruct (find p l); reflexivity
    end.
Qed.

(* without a tag the insertion of the reservation is refused by the
   database, and nothing has been written *)
Lemma reserve_step_no_tag (self : FileManager) (acc : bool * States)
      (file : ArchiveFile) (db : Database) :
  _tag self = None ->
  reserve_step self false acc file db =
  (db, Raise (IntegrityError "filereservation" "tag_id")).
Proof.
  intros Ht.
  unfold reserve_step, bind, query, ret, FileReservation_create.
  rewrite _filecopy_state_eq, Ht. cbn [fst snd negb option_map].
  destruct (flag_in_flags (has_copy_on_destination self db file)
                          (is_some (chosen_source self db file))
                          (has_reservation self db file))
    as (_ & _ & Hr & _).
  rewrite Hr.
  assert (Hnone : has_reservation self db file = false).
  { unfold has_reservation, reserved_by. rewrite Ht.
    induction (reservations db) as [|r l IH]; simpl; [reflexivity|].
    rewrite IH. now rewrite andb_false_r. }
  rewrite Hnone. reflexivity.
Qed.

(** ** What an iteration leaves in the database *)

Lemma extends_refl (db : Database) : extends db db.
Proof.
  repeat split; [exists [] | exists []]; now rewrite app_nil_r.
Qed.

Lemma extends_trans (a b c : Database) :
  extends a b -> extends b c -> extends a c.
Proof.
  intros (Ha1 & Hf1 & Hc1 & (r1 & Hr1) & (q1 & Hq1))
         (Ha2 & Hf2 & Hc2 & (r2 & Hr2) & (q2 & Hq2)).
  split; [congruence|]. split; [congruence|]. split; [congruence|]. split.
  - exists (r1 ++ r2). now rewrite Hr2, Hr1, app_assoc.
  - exists (q1 ++ q2). now rewrite Hq2, Hq1, app_assoc.
Qed.

Lemma recall_extends (self : FileManager) (file : ArchiveFile) (src : nat)
      (db : Database) :
  extends db (recall self file src db).
Proof.
  unfold recall.
  destruct (is_some _); [apply extends_refl|].
  repeat split; [exists [] | eexists; reflexivity]. simpl. now rewrite app_nil_r.
Qed.

Lemma reserve_effect_extends (self : FileManager) (t : FileReservationTag)
      (file : ArchiveFile) (db : Database) :
  extends db (reserve_effect self t file db).
Proof.
  unfold reserve_effect.
  set (db1 := if has_reservation self db file then db else _).
  assert (H1 : extends db db1).
  { subst db1. destruct (has_reservation self db file); [apply extends_refl|].
    repeat split; [eexists; reflexivity | exists []]. simpl. now rewrite app_nil_r. }
  destruct (chosen_source self db file) as [src|]; [|exact H1].
  destruct (has_copy_on_destination self db file); [exact H1|].
  eapply extends_trans; [exact H1 | apply recall_extends].
Qed.

Section Monotone.

Variable self : FileManager.
Variables db db' : Database.
Hypothesis Hext : extends db db'.

Lemma extends_has_copy (file : ArchiveFile) :
  has_copy_on_destination self db' file = has_copy_on_destination self db file.
Proof.
  unfold has_copy_on_destination. destruct Hext as (_ & _ & -> & _). reflexivity.
Qed.

Lemma extends_chosen_source (file : ArchiveFile) :
  chosen_source self db' file = chosen_source self db file.
Proof.
  unfold chosen_source. destruct Hext as (_ & _ & -> & _). reflexivity.
Qed.

Lemma extends_has_reservation (file : ArchiveFile) :
  has_reservation self db file = true -> has_reservation self db' file = true.
Proof.
  unfold has_reservation. destruct Hext as (_ & _ & _ & (rs & ->) & _).
  rewrite existsb_app. intros ->. reflexivity.
Qed.

Lemma extends_has_request (file : ArchiveFile) (src : nat) :
  has_request self file src db = true -> has_request self file src db' = true.
Proof.
  unfold has_request. destruct Hext as (_ & _ & _ & _ & (qs & ->)).
  rewrite existsb_app. intros ->. reflexivity.
Qed.

End Monotone.

Lemma request_matches_refl (k : ArchiveFileCopyRequest) : request_matches k k = true.
Proof.
  unfold request_matches.
  rewrite !Nat.eqb_refl, !Z.eqb_refl, !eqb_reflx. reflexivity.
Qed.

Lemma reserved_by_new (self : FileManager) (t : FileReservationTag)
      (file : ArchiveFile) :
  _tag self = Some t ->
  reserved_by self file
    (mkReservation (file_id file) (node_id (_node self)) (tag_id t)) = true.
Proof.
  intros Ht. unfold reserved_by. rewrite Ht. simpl.
  now rewrite !Nat.eqb_refl.
Qed.

Lemma reserve_effect_settled_id (self : FileManager) (t : FileReservationTag)
      (file : ArchiveFile) (db : Database) :
  settled self db file = true -> reserve_effect self t file db = db.
Proof.
  unfold settled, reserve_effect, recall, has_request.
  intros H. apply andb_prop in H as (-> & H).
  destruct (chosen_source self db file) as [src|]; [|reflexivity].
  destruct (has_copy_on_destination self db file); [reflexivity|].
  rewrite <- existsb_find.
  simpl in H. rewrite H. reflexivity.
Qed.

Lemma reserve_effect_settles (self : FileManager) (t : FileReservationTag)
      (file : ArchiveFile) (db : Database) :
  _tag self = Some t ->
  settled self (reserve_effect self t file db) file = true.
Proof.
  intros Ht.
  pose proof (reserve_effect_extends self t file db) as Hext.
  unfold settled.
  rewrite (extends_has_copy self _ _ Hext), (extends_chosen_source self _ _ Hext).
  assert (Hres : has_reservation self (reserve_effect self t file db) file = true).
  { unfold reserve_effect.
    set (db1 := if has_reservation self db file then db else _).
    assert (H1 : has_reservation self db1 file = true).
    { subst db1. destruct (has_reservation self db file) eqn:E; [exact E|].
      unfold has_reservation. simpl. rewrite existsb_app. simpl.
      rewrite (reserved_by_new self t file Ht). now rewrite orb_true_r. }
    destruct (chosen_source self db file) as [src|]; [|exact H1].
    destruct (has_copy_on_destination self db file); [exact H1|].
    eapply extends_has_reservation; [apply recall_extends | exact H1]. }
  rewrite Hres. simpl.
  destruct (has_copy_on_destination self db file) eqn:Hp; [reflexivity|]. simpl.
  destruct (chosen_source self db file) as [src|] eqn:Hs; [|reflexivity].
  unfold reserve_effect. rewrite Hs, Hp.
  unfold recall, has_request. rewrite <- existsb_find.
  match goal with |- context [if existsb ?p ?l then _ else _] =>
    destruct (existsb p l) eqn:E end; [exact E|].
  simpl. rewrite existsb_app. simpl.
  rewrite request_matches_refl. now rewrite orb_true_r.
Qed.

Lemma extends_settled (self : FileManager) (db db' : Database) (file : ArchiveFile) :
  extends db db' -> settled self db file = true -> settled self db' file = true.
Proof.
  intros Hext. unfold settled.
  rewrite (extends_has_copy self _ _ Hext), (extends_chosen_source self _ _ Hext).
  intros H. apply andb_prop in H as (Hr & H).
  rewrite (extends_has_reservation self _ _ Hext _ Hr). simpl.
  destruct (has_copy_on_destination self db file); [reflexivity|]. simpl in *.
  destruct (chosen_source self db file) as [src|]; [|reflexivity].
  now apply (extends_has_request self _ _ Hext).
Qed.

(** ** The loop of reserve *)

Lemma dict_set_has_key (states : States) (file : ArchiveFile) (state : CopyState) :
  has_key (dict_set states file state) file = true.
Proof.
  unfold has_key.
  induction states as [|[k v] d IH]; simpl.
  - now rewrite Nat.eqb_refl.
  - destruct (file_id k =? file_id file)%nat eqn:E; simpl; rewrite E; simpl; auto.
Qed.

Lemma dict_set_keeps_key (states : States) (file other : ArchiveFile)
      (state : CopyState) :
  has_key states other = true -> has_key (dict_set states file state) other = true.
Proof.
  unfold has_key.
  induction states as [|[k v] d IH]; simpl; [discriminate|].
  destruct (file_id k =? file_id file)%nat; simpl;
    destruct (file_id k =? file_id other)%nat; simpl; auto.
Qed.

Lemma reserve_effects_extends (self : FileManager) (t : FileReservationTag)
      (files : list ArchiveFile) (db : Database) :
  extends db (reserve_effects self t files db).
Proof.
  revert db. induction files as [|f fl IH]; intros db; simpl.
  - apply extends_refl.
  - eapply extends_trans; [apply reserve_effect_extends | apply IH].
Qed.

Lemma forallb_has_copy_extends (self : FileManager) (db db' : Database)
      (files : list ArchiveFile) :
  extends db db' ->
  forallb (has_copy_on_destination self db') files =
  forallb (has_copy_on_destination self db) files.
Proof.
  intros Hext. induction files as [|f fl IH]; simpl; [reflexivity|].
  now rewrite IH, (extends_has_copy self _ _ Hext).
Qed.

Lemma for_each_check_only (self : FileManager) (files : list ArchiveFile) :
  forall (result : bool) (states : States) (db : Database),
  exists states',
    for_each (reserve_step self true) (result, states) files db =
    (db, Ok (result && forallb (has_copy_on_destination self db) files, states')) /\
    (forall f, has_key states f = true \/ In f files -> has_key states' f = true).
Proof.
  induction files as [|file fl IH]; intros result states db.
  - exists states. simpl. unfold ret. rewrite andb_true_r. split; [reflexivity|].
    intros f [H|H]; [exact H | destruct H].
  - simpl. unfold bind. rewrite reserve_step_check_only.
    destruct (IH (result && has_copy_on_destination self db file)
                 (dict_set states file (remembered_state self true file db)) db)
      as (states' & Heq & Hkeys).
    exists states'. rewrite Heq, andb_assoc. split; [reflexivity|].
    intros f [H|[<-|H]]; apply Hkeys; auto using dict_set_has_key, dict_set_keeps_key.
Qed.

Lemma for_each_tagged (self : FileManager) (t : FileReservationTag)
      (files : list ArchiveFile) :
  _tag self = Some t ->
  forall (result : bool) (states : States) (db : Database),
  exists states',
    for_each (reserve_step self false) (result, states) files db =
    (reserve_effects self t files db,
     Ok (result && forallb (has_copy_on_destination self db) files, states')) /\
    (forall f, has_key states f = true \/ In f files -> has_key states' f = true).
Proof.
  intros Ht.
  induction files as [|file fl IH]; intros result states db.
  - exists states. simpl. unfold ret. rewrite andb_true_r. split; [reflexivity|].
    intros f [H|H]; [exact H | destruct H].
  - simpl. unfold bind. rewrite (reserve_step_tagged self t _ _ _ _ Ht).
    destruct (IH (result && has_copy_on_destination self db file)
                 (dict_set states file (remembered_state self false file db))
                 (reserve_effect self t file db))
      as (states' & Heq & Hkeys).
    exists states'. rewrite Heq.
    rewrite (forallb_has_copy_extends self db _ fl (reserve_effect_extends self t file db)).
    rewrite andb_assoc. split; [reflexivity|].
    intros f [H|[<-|H]]; apply Hkeys; auto using dict_set_has_key, dict_set_keeps_key.
Qed.

Lemma for_each_no_tag (self : FileManager) (acc : bool * States)
      (file : ArchiveFile) (files : list ArchiveFile) (db : Database) :
  _tag self = None ->
  for_each (reserve_step self false) acc (file :: files) db =
  (db, Raise (IntegrityError "filereservation" "tag_id")).
Proof.
  intros Ht. simpl. unfold bind.
  now rewrite (reserve_step_no_tag self acc file db Ht).
Qed.

(* every file of the list is settled once the loop is through *)
Lemma reserve_effects_settle (self : FileManager) (t : FileReservationTag)
      (files : list ArchiveFile) :
  _tag self = Some t ->
  forall db f, In f files -> settled self (reserve_effects self t files db) f = true.
Proof.
  intros Ht. induction files as [|g fl IH]; intros db f Hin; [destruct Hin|].
  destruct Hin as [<-|Hin]; simpl.
  - eapply extends_settled; [apply reserve_effects_extends|].
    now apply reserve_effect_settles.
  - now apply IH.
Qed.

Lemma reserve_effects_settled_id (self : FileManager) (t : FileReservationTag)
      (files : list ArchiveFile) (db : Database) :
  (forall f, In f files -> settled self db f = true) ->
  reserve_effects self t files db = db.
Proof.
  induction files as [|g fl IH]; intros Hall; simpl; [reflexivity|].
  rewrite reserve_effect_settled_id by (apply Hall; now left).
  apply IH. intros f Hf. apply Hall. now right.
Qed.

(** ** reserve as a whole *)

Lemma reserve_unfold (self : FileManager) (files : FilesArg)
      (check_only verbose : bool) (db : Database) :
  reserve self files check_only verbose db =
  match _fixup_filespec self files db with
  | Ok fl =>
      match for_each (reserve_step self check_only) (@pair bool States true []) fl db with
      | (db', Ok acc) =>
          (db', Ok (mkOutcome (fst acc)
                              (if verbose then Some (table_data (snd acc) check_only)
                               else None)))
      | (db', Raise e) => (db', Raise e)
      end
  | Raise e => (db, Raise e)
  end.
Proof.
  unfold reserve, bind, query, ret. cbv zeta.
  destruct (_fixup_filespec self files db); [|reflexivity].
  destruct (for_each _ _ _ db) as [db' [acc|e]]; reflexivity.
Qed.

Lemma reserve_check_only_eq (self : FileManager) (files : FilesArg)
      (verbose : bool) (db : Database) (fl : list ArchiveFile) :
  _fixup_filespec self files db = Ok fl ->
  exists printed,
    reserve self files true verbose db =
    (db, Ok (mkOutcome (forallb (has_copy_on_destination self db) fl) printed)).
Proof.
  intros Hfix. rewrite reserve_unfold, Hfix.
  destruct (for_each_check_only self fl true [] db) as (states & -> & _).
  eexists. reflexivity.
Qed.

Lemma reserve_tagged_eq (self : FileManager) (t : FileReservationTag)
      (files : FilesArg) (verbose : bool) (db : Database) (fl : list ArchiveFile) :
  _tag self = Some t ->
  _fixup_filespec self files db = Ok fl ->
  exists printed,
    reserve self files false verbose db =
    (reserve_effects self t fl db,
     Ok (mkOutcome (forallb (has_copy_on_destination self db) fl) printed)).
Proof.
  intros Ht Hfix. rewrite reserve_unfold, Hfix.
  destruct (for_each_tagged self t fl Ht true [] db) as (states & -> & _).
  eexists. reflexivity.
Qed.

Lemma reserve_check_only_frame (self : FileManager) (files : FilesArg)
      (verbose : bool) (db : Database) :
  fst (reserve self files true verbose db) = db.
Proof.
  rewrite reserve_unfold.
  destruct (_fixup_filespec self files db) as [fl|e]; [|reflexivity].
  destruct (for_each_check_only self fl true [] db) as (states & -> & _).
  reflexivity.
Qed.

(** ** Presence on the destination, and the result of reserve *)

Lemma has_copy_on_destination_spec (self : FileManager) (db : Database)
      (file : ArchiveFile) :
  has_copy_on_destination self db file = true <->
  PRESENT_on_destination self db file.
Proof.
  unfold has_copy_on_destination, PRESENT_on_destination, copy_on.
  rewrite existsb_exists. split.
  - intros (c & Hin & H). exists c.
    apply andb_prop in H as (H & Hy). apply andb_prop in H as (Hf & Hn).
    apply Nat.eqb_eq in Hf, Hn. apply String.eqb_eq in Hy. auto.
  - intros (c & Hin & Hf & Hn & Hy). exists c. split; [exact Hin|].
    rewrite Hf, Hn, Hy, !Nat.eqb_refl. reflexivity.
Qed.

Lemma all_present_spec (self : FileManager) (db : Database)
      (fl : list ArchiveFile) :
  forallb (has_copy_on_destination self db) fl = true <->
  (forall f, In f fl -> PRESENT_on_destination self db f).
Proof.
  rewrite forallb_forall.
  split; intros H f Hin; apply has_copy_on_destination_spec, H, Hin.
Qed.

Lemma settled_has_reservation (self : FileManager) (db : Database)
      (file : ArchiveFile) :
  settled self db file = true -> has_reservation self db file = true.
Proof. unfold settled. intros H. now apply andb_prop in H. Qed.

(** C1.  For a list of file specifications that normalises to the files
    [fl], on a manager with a tag in use (or in check-only mode), reserve
    returns, and it returns true if and only if every file of [fl] is
    PRESENT on the destination node.  There is no early exit: the loop
    runs over the whole list, so every file of [fl] has its state
    remembered and, unless only checking, every file of [fl] is reserved
    afterwards, whatever the presence of the files before it. *)
Theorem reserve_true_iff_all_present
        (self : FileManager) (files : FilesArg) (check_only verbose : bool)
        (db : Database) (fl : list ArchiveFile) :
  _fixup_filespec self files db = Ok fl ->
  check_only || is_some (_tag self) = true ->
  exists db' out states,
    reserve self files check_only verbose db = (db', Ok out) /\
    (returned out = true <->
     forall f, In f fl -> PRESENT_on_destination self db f) /\
    for_each (reserve_step self check_only) (@pair bool States true []) fl db =
      (db', Ok (returned out, states)) /\
    (forall f, In f fl -> has_key states f = true) /\
    (check_only = false ->
     forall f, In f fl -> has_reservation self db' f = true).
Proof.
  intros Hfix Hmode. rewrite reserve_unfold, Hfix.
  destruct check_only.
  - destruct (for_each_check_only self fl true [] db) as (states & Heq & Hkeys).
    rewrite Heq. eexists _, _, states. split; [reflexivity|]. cbn [returned fst].
    repeat split.
    + intros H. now apply all_present_spec.
    + intros H. now apply all_present_spec.
    + intros f Hin. apply Hkeys. now right.
    + discriminate.
  - destruct (_tag self) as [t|] eqn:Ht; [|discriminate].
    destruct (for_each_tagged self t fl Ht true [] db) as (states & Heq & Hkeys).
    rewrite Heq. eexists _, _, states. split; [reflexivity|]. cbn [returned fst].
    repeat split.
    + intros H. now apply all_present_spec.
    + intros H. now apply all_present_spec.
    + intros f Hin. apply Hkeys. now right.
    + intros _ f Hin. apply settled_has_reservation.
      now apply reserve_effects_settle.
Qed.

Lemma reserve_true_iff_all_present_witness :
  exists db' out states,
    reserve Fixture.cedar
            (Many [SpecFile Fixture.file0; SpecFile Fixture.file2;
                   SpecFile Fixture.file1])
            false true Fixture.test_data = (db', Ok out) /\
    (returned out = true <->
     forall f, In f [Fixture.file0; Fixture.file2; Fixture.file1] ->
               PRESENT_on_destination Fixture.cedar Fixture.test_data f) /\
    for_each (reserve_step Fixture.cedar false) (@pair bool States true [])
             [Fixture.file0; Fixture.file2; Fixture.file1] Fixture.test_data =
      (db', Ok (returned out, states)) /\
    (forall f, In f [Fixture.file0; Fixture.file2; Fixture.file1] ->
               has_key states f = true) /\
    (false = false ->
     forall f, In f [Fixture.file0; Fixture.file2; Fixture.file1] ->
               has_reservation Fixture.cedar db' f = true).
Proof.
  apply (reserve_true_iff_all_present
           Fixture.cedar
           (Many [SpecFile Fixture.file0; SpecFile Fixture.file2;
                  SpecFile Fixture.file1])
           false true Fixture.test_data
           [Fixture.file0; Fixture.file2; Fixture.file1]);
    reflexivity.
Defined.

(** C2.  In check-only mode reserve leaves the database as it found it,
    for every input: no reservation record and no transfer request is
    created.  Whenever the call without check-only, on the same arguments
    and database, returns a boolean, the check-only call returns the same
    boolean; and for a list that normalises to [fl] the check-only call
    returns whether all the files of [fl] are PRESENT. *)
Theorem reserve_check_only_creates_nothing
        (self : FileManager) (files : FilesArg) (verbose : bool) (db : Database) :
  fst (reserve self files true verbose db) = db /\
  (forall db2 out2,
      reserve self files false verbose db = (db2, Ok out2) ->
      exists out1,
        reserve self files true verbose db = (db, Ok out1) /\
        returned out1 = returned out2) /\
  (forall fl,
      _fixup_filespec self files db = Ok fl ->
      exists out1,
        reserve self files true verbose db = (db, Ok out1) /\
        returned out1 = forallb (has_copy_on_destination self db) fl).
Proof.
  split; [apply reserve_check_only_frame|]. split.
  - intros db2 out2 H2.
    destruct (_fixup_filespec self files db) as [fl|e] eqn:Hfix.
    + destruct (reserve_check_only_eq self files verbose db fl Hfix) as (p1 & H1).
      eexists. split; [exact H1|]. cbn [returned].
      destruct (_tag self) as [t|] eqn:Ht.
      * destruct (reserve_tagged_eq self t files verbose db fl Ht Hfix) as (p2 & E).
        rewrite E in H2. injection H2 as _ <-. reflexivity.
      * destruct fl as [|f fl].
        -- rewrite reserve_unfold, Hfix in H2. simpl in H2. unfold ret in H2.
           injection H2 as _ <-. reflexivity.
        -- rewrite reserve_unfold, Hfix in H2.
           rewrite (for_each_no_tag self _ f fl db Ht) in H2. discriminate.
    + rewrite reserve_unfold, Hfix in H2. discriminate.
  - intros fl Hfix.
    destruct (reserve_check_only_eq self files verbose db fl Hfix) as (p1 & H1).
    eexists. split; [exact H1|]. reflexivity.
Qed.

Lemma reserve_check_only_creates_nothing_witness :
  exists out1,
    reserve Fixture.cedar (Many [SpecFile Fixture.file0; SpecFile Fixture.file3])
            true false Fixture.test_data = (Fixture.test_data, Ok out1) /\
    returned out1 = false.
Proof.
  destruct (reserve_check_only_creates_nothing
              Fixture.cedar
              (Many [SpecFile Fixture.file0; SpecFile Fixture.file3])
              false Fixture.test_data) as (_ & H & _).
  exact (H _ (mkOutcome false None) eq_refl).
Defined.

(** ** is_reserved *)

Lemma fixup_one_with_reservations (self : FileManager) (db : Database)
      (rs : list FileReservation) (file : FileSpec) :
  fixup_one self (with_reservations db rs) file = fixup_one self db file.
Proof. reflexivity. Qed.

(** C10.  is_reserved on a single file specification is reserve on it in
    check-only mode: it leaves the database as it is; when the
    specification normalises to the file [f] it returns whether [f] is
    PRESENT on the destination node; and its result is the same whatever
    the table of reservations holds. *)
Theorem is_reserved_is_presence_check
        (self : FileManager) (file : FileSpec) (db : Database) :
  is_reserved self (One file) db = reserve self (One file) true false db /\
  fst (is_reserved self (One file) db) = db /\
  (forall f, fixup_one self db file = Ok f ->
             snd (is_reserved self (One file) db) =
             Ok (mkOutcome (has_copy_on_destination self db f) None)) /\
  (forall rs, snd (is_reserved self (One file) (with_reservations db rs)) =
              snd (is_reserved self (One file) db)).
Proof.
  assert (Hval : forall d,
             snd (is_reserved self (One file) d) =
             match fixup_one self d file with
             | Ok f => Ok (mkOutcome (has_copy_on_destination self d f) None)
             | Raise e => Raise e
             end).
  { intros d. unfold is_reserved. rewrite reserve_unfold.
    unfold _fixup_filespec. cbn [fixup_loop rbind].
    destruct (fixup_one self d file) as [f|e]; cbn [rbind app]; [|reflexivity].
    destruct (for_each_check_only self [f] true [] d) as (states & -> & _).
    cbn [snd fst forallb andb]. now rewrite andb_true_r. }
  split; [reflexivity|]. split; [apply reserve_check_only_frame|]. split.
  - intros f Hf. rewrite Hval, Hf. reflexivity.
  - intros rs. rewrite !Hval, fixup_one_with_reservations. reflexivity.
Qed.

Lemma is_reserved_is_presence_check_witness :
  snd (is_reserved Fixture.cedar (One (SpecTuple ["acqpath"; "file2"]))
                   Fixture.test_data) =
  Ok (mkOutcome false None).
Proof.
  destruct (is_reserved_is_presence_check
              Fixture.cedar (SpecTuple ["acqpath"; "file2"]) Fixture.test_data)
    as (_ & _ & H & _).
  exact (H Fixture.file2 eq_refl).
Defined.

(** ** A manager without a tag *)

(** C8 (as the code has it).  reserve has no check of the tag in use.  On
    a manager without a tag a call that is not check-only writes nothing
    to the database: no reservation record and no transfer request is
    created.  When the list normalises to a non-empty list of files the
    call fails at the first file, the insertion of its reservation being
    refused by the database; when it normalises to the empty list the call
    returns true. *)
Theorem reserve_without_tag
        (self : FileManager) (files : FilesArg) (verbose : bool) (db : Database) :
  _tag self = None ->
  fst (reserve self files false verbose db) = db /\
  (forall f fl,
      _fixup_filespec self files db = Ok (f :: fl) ->
      snd (reserve self files false verbose db) =
      Raise (IntegrityError "filereservation" "tag_id")) /\
  (_fixup_filespec self files db = Ok [] ->
   snd (reserve self files false verbose db) =
   Ok (mkOutcome true (if verbose then Some [] else None))).
Proof.
  intros Ht. rewrite reserve_unfold.
  destruct (_fixup_filespec self files db) as [[|f fl]|e].
  - simpl. unfold ret. split; [reflexivity|]. split; [discriminate|].
    intros _. destruct verbose; reflexivity.
  - rewrite (for_each_no_tag self _ f fl db Ht).
    split; [reflexivity|]. split; [reflexivity | discriminate].
  - split; [reflexivity|]. split; discriminate.
Qed.

Lemma reserve_without_tag_witness :
  fst (reserve Fixture.cedar_no_tag (Many [SpecFile Fixture.file2]) false false
               Fixture.test_data) = Fixture.test_data /\
  snd (reserve Fixture.cedar_no_tag (Many [SpecFile Fixture.file2]) false false
               Fixture.test_data) =
  Raise (IntegrityError "filereservation" "tag_id").
Proof.
  destruct (reserve_without_tag
              Fixture.cedar_no_tag (Many [SpecFile Fixture.file2]) false
              Fixture.test_data eq_refl) as (H1 & H2 & _).
  split; [exact H1 | exact (H2 Fixture.file2 [] eq_refl)].
Defined.

(* The specification has every call of reserve that is not check-only
   fail on a manager without a tag.  It does not on the empty list. *)
Lemma reserve_without_tag_may_return :
  Fixture.cedar_no_tag.(_tag) = None /\
  reserve Fixture.cedar_no_tag (Many []) false false Fixture.test_data =
  (Fixture.test_data, Ok (mkOutcome true None)) /\
  ~ (forall self files verbose db,
        _tag self = None ->
        exists e, snd (reserve self files false verbose db) = Raise e).
Proof.
  split; [reflexivity|]. split; [reflexivity|].
  intros H.
  destruct (H Fixture.cedar_no_tag (Many []) false Fixture.test_data eq_refl)
    as (e & He).
  discriminate He.
Qed.

(** ** Records created by reserve, file by file *)

Lemma reserve_effect_reservations (self : FileManager) (t : FileReservationTag)
      (g : ArchiveFile) (db : Database) :
  reservations (reserve_effect self t g db) =
  reservations db ++ new_reservation self t g db.
Proof.
  unfold reserve_effect, recall, new_reservation.
  destruct (has_reservation self db g);
    destruct (chosen_source self db g);
    destruct (has_copy_on_destination self db g);
    try match goal with |- context [is_some ?x] => destruct (is_some x) end;
    simpl; rewrite ?app_nil_r; reflexivity.
Qed.

Lemma reserve_effect_requests (self : FileManager) (t : FileReservationTag)
      (g : ArchiveFile) (db : Database) :
  requests (reserve_effect self t g db) = requests db ++ new_request self g db.
Proof.
  unfold reserve_effect, recall, new_request, has_request.
  destruct (chosen_source self db g) as [src|];
    destruct (has_copy_on_destination self db g);
    destruct (has_reservation self db g);
    cbn [orb requests with_reservations]; rewrite ?app_nil_r; try reflexivity;
    rewrite existsb_find;
    match goal with |- context [is_some ?x] => destruct (is_some x) end;
    simpl; rewrite ?app_nil_r; reflexivity.
Qed.

Section SameFile.

Variable self : FileManager.
Variable db : Database.
Variables f g : ArchiveFile.
Hypothesis Hid : file_id g = file_id f.

Lemma same_file_has_copy :
  has_copy_on_destination self db g = has_copy_on_destination self db f.
Proof. unfold has_copy_on_destination, copy_on. now rewrite Hid. Qed.

Lemma same_file_chosen_source :
  chosen_source self db g = chosen_source self db f.
Proof. unfold chosen_source, copy_on. now rewrite Hid. Qed.

Lemma same_file_has_reservation :
  has_reservation self db g = has_reservation self db f.
Proof. unfold has_reservation, reserved_by. now rewrite Hid. Qed.

Lemma same_file_has_request (src : nat) :
  has_request self g src db = has_request self f src db.
Proof. unfold has_request, recall_request. now rewrite Hid. Qed.

Lemma same_file_settled : settled self db g = settled self db f.
Proof.
  unfold settled.
  rewrite same_file_has_copy, same_file_chosen_source, same_file_has_reservation.
  destruct (chosen_source self db f) as [src|]; [|reflexivity].
  now rewrite same_file_has_request.
Qed.

End SameFile.

Section CountPerFile.

Variable self : FileManager.
Variable t : FileReservationTag.
Hypothesis Ht : _tag self = Some t.
Variable f : ArchiveFile.

Lemma step_count_reservations (g : ArchiveFile) (db : Database) :
  length (reservations_of f (reserve_effect self t g db)) =
  length (reservations_of f db) +
  one_if ((file_id g =? file_id f)%nat && reservation_due self db g).
Proof.
  unfold reservations_of, reservation_due.
  rewrite reserve_effect_reservations, filter_app, length_app.
  f_equal. unfold new_reservation.
  destruct (has_reservation self db g); simpl;
    [now rewrite andb_false_r|].
  destruct (file_id g =? file_id f)%nat; reflexivity.
Qed.

Lemma step_count_requests (g : ArchiveFile) (db : Database) :
  length (requests_of f (reserve_effect self t g db)) =
  length (requests_of f db) +
  one_if ((file_id g =? file_id f)%nat && recall_due self db g).
Proof.
  unfold requests_of, recall_due.
  rewrite reserve_effect_requests, filter_app, length_app.
  f_equal. unfold new_request.
  destruct (chosen_source self db g) as [src|]; simpl;
    [|now rewrite andb_false_r].
  destruct (has_copy_on_destination self db g || has_request self g src db); simpl;
    [now rewrite andb_false_r|].
  destruct (file_id g =? file_id f)%nat; reflexivity.
Qed.

(* the iteration for another file leaves what is due for [f] as it is;
   the iteration for [f] leaves nothing due *)
Lemma step_due_other (g : ArchiveFile) (db : Database) :
  (file_id g =? file_id f)%nat = false ->
  reservation_due self (reserve_effect self t g db) f = reservation_due self db f /\
  recall_due self (reserve_effect self t g db) f = recall_due self db f.
Proof.
  intros Hne.
  pose proof (reserve_effect_extends self t g db) as Hext.
  unfold reservation_due, recall_due.
  rewrite (extends_has_copy self _ _ Hext), (extends_chosen_source self _ _ Hext).
  split.
  - f_equal. unfold has_reservation.
    rewrite reserve_effect_reservations, existsb_app.
    unfold new_reservation. destruct (has_reservation self db g); simpl;
      [now rewrite orb_false_r|].
    unfold reserved_by. simpl. rewrite Hne. simpl. now rewrite orb_false_r.
  - destruct (chosen_source self db f) as [src|]; [|reflexivity].
    do 2 f_equal. unfold has_request.
    rewrite reserve_effect_requests, existsb_app.
    unfold new_request. destruct (chosen_source self db g) as [sg|]; simpl;
      [|now rewrite orb_false_r].
    destruct (has_copy_on_destination self db g || has_request self g sg db); simpl;
      [now rewrite orb_false_r|].
    unfold request_matches. simpl. rewrite Hne. simpl. now rewrite orb_false_r.
Qed.

Lemma settled_nothing_due (db : Database) :
  settled self db f = true ->
  reservation_due self db f = false /\ recall_due self db f = false.
Proof.
  unfold settled, reservation_due, recall_due.
  intros H. apply andb_prop in H as (-> & H). split; [reflexivity|].
  destruct (chosen_source self db f) as [src|]; [|reflexivity].
  now rewrite H.
Qed.

Lemma step_due_same (g : ArchiveFile) (db : Database) :
  (file_id g =? file_id f)%nat = true ->
  reservation_due self (reserve_effect self t g db) f = false /\
  recall_due self (reserve_effect self t g db) f = false.
Proof.
  intros He. apply Nat.eqb_eq in He.
  apply settled_nothing_due.
  rewrite <- (same_file_settled self _ f g He).
  now apply reserve_effect_settles.
Qed.

Lemma loop_count (fl : list ArchiveFile) :
  forall db,
    length (reservations_of f (reserve_effects self t fl db)) =
    length (reservations_of f db) +
    one_if (mentions fl f && reservation_due self db f) /\
    length (requests_of f (reserve_effects self t fl db)) =
    length (requests_of f db) +
    one_if (mentions fl f && recall_due self db f).
Proof.
  induction fl as [|g fl IH]; intros db; simpl.
  - split; apply plus_n_O.
  - destruct (IH (reserve_effect self t g db)) as (IHr & IHq).
    rewrite IHr, IHq, step_count_reservations, step_count_requests.
    destruct (file_id g =? file_id f)%nat eqn:E.
    + destruct (step_due_same g db E) as (-> & ->).
      apply Nat.eqb_eq in E.
      unfold reservation_due, recall_due.
      rewrite (same_file_has_reservation self db f g E),
              (same_file_chosen_source self db f g E),
              (same_file_has_copy self db f g E).
      rewrite !andb_false_r. simpl. rewrite !Nat.add_0_r.
      split; [reflexivity|].
      destruct (chosen_source self db f) as [src|]; [|reflexivity].
      now rewrite (same_file_has_request self db f g E).
    + destruct (step_due_other g db E) as (-> & ->). simpl.
      rewrite !Nat.add_0_r. split; reflexivity.
Qed.

End CountPerFile.

Lemma In_mentions (fl : list ArchiveFile) (f : ArchiveFile) :
  In f fl -> mentions fl f = true.
Proof.
  intros Hin. unfold mentions. apply existsb_exists.
  exists f. split; [exact Hin | apply Nat.eqb_refl].
Qed.

Lemma fixup_extends (self : FileManager) (files : FilesArg) (db db' : Database) :
  extends db db' ->
  _fixup_filespec self files db' = _fixup_filespec self files db.
Proof.
  intros (Ha & Hf & _).
  unfold _fixup_filespec.
  generalize (@nil ArchiveFile) as out.
  induction (match files with One file => [file] | Many l => l end)
    as [|x l IH]; intros out; simpl; [reflexivity|].
  assert (E : fixup_one self db' x = fixup_one self db x).
  { unfold fixup_one, tuple_to_file, file_named. now rewrite Ha, Hf. }
  rewrite E. destruct (fixup_one self db x); simpl; [apply IH | reflexivity].
Qed.

(** ** The first call of reserve and its repetition *)

Lemma find_filter {A} (p : A -> bool) (l : list A) :
  find p l = hd_error (filter p l).
Proof.
  induction l as [|x l IH]; simpl; [reflexivity|].
  destruct (p x); [reflexivity | exact IH].
Qed.

Lemma available_only_on_chosen (self : FileManager) (db : Database)
      (file : ArchiveFile) (src : nat) :
  available_only_on self db file src = true ->
  chosen_source self db file = Some src.
Proof.
  unfold available_only_on, sources_holding, chosen_source.
  rewrite find_filter.
  destruct (filter (copy_on file (in_sources self)) (copies db)) as [|c l];
    simpl; [discriminate|].
  intros H. apply andb_prop in H as (H & _).
  apply Nat.eqb_eq in H. now rewrite H.
Qed.

(** C3 (as the code has it).  Let the manager have a tag in use, and let
    [f] be a file of the list that is not PRESENT on the destination, is
    AVAILABLE on exactly one source node [src], has no reservation yet for
    the destination and the tag in use, and has no pending transfer
    request yet from [src] to the group of the destination.  Then the
    first call of reserve (not check-only) creates exactly one reservation
    record and exactly one transfer request for [f], and the same call
    repeated at once creates nothing: it leaves the database as the first
    call left it, and returns the same boolean. *)
Theorem reserve_creates_once_then_nothing
        (self : FileManager) (t : FileReservationTag) (files : FilesArg)
        (verbose : bool) (db : Database) (fl : list ArchiveFile)
        (f : ArchiveFile) (src : nat) :
  _tag self = Some t ->
  _fixup_filespec self files db = Ok fl ->
  In f fl ->
  has_copy_on_destination self db f = false ->
  available_only_on self db f src = true ->
  has_reservation self db f = false ->
  has_request self f src db = false ->
  exists db1 out1 out2,
    reserve self files false verbose db = (db1, Ok out1) /\
    length (reservations_of f db1) = S (length (reservations_of f db)) /\
    length (requests_of f db1) = S (length (requests_of f db)) /\
    reserve self files false verbose db1 = (db1, Ok out2) /\
    returned out2 = returned out1.
Proof.
  intros Ht Hfix Hin Hp Hav Hres Hreq.
  apply available_only_on_chosen in Hav.
  pose proof (reserve_effects_extends self t fl db) as Hext.
  destruct (reserve_tagged_eq self t files verbose db fl Ht Hfix) as (p1 & E1).
  assert (Hfix1 : _fixup_filespec self files (reserve_effects self t fl db) = Ok fl)
    by now rewrite (fixup_extends self files _ _ Hext).
  destruct (reserve_tagged_eq self t files verbose _ fl Ht Hfix1) as (p2 & E2).
  rewrite (reserve_effects_settled_id self t fl (reserve_effects self t fl db)) in E2
    by (intros g Hg; now apply reserve_effects_settle).
  eexists _, _, _. split; [exact E1|].
  destruct (loop_count self t Ht f fl db) as (Hr & Hq).
  rewrite Hr, Hq, (In_mentions fl f Hin).
  unfold reservation_due, recall_due. rewrite Hres, Hav, Hp, Hreq. simpl.
  rewrite !Nat.add_1_r. split; [reflexivity|]. split; [reflexivity|].
  split; [exact E2|]. cbn [returned].
  apply forallb_has_copy_extends, Hext.
Qed.

Lemma reserve_creates_once_then_nothing_witness :
  exists db1 out1 out2,
    reserve Fixture.cedar (Many [SpecFile Fixture.file0; SpecFile Fixture.file2])
            false false Fixture.test_data = (db1, Ok out1) /\
    length (reservations_of Fixture.file2 db1) =
      S (length (reservations_of Fixture.file2 Fixture.test_data)) /\
    length (requests_of Fixture.file2 db1) =
      S (length (requests_of Fixture.file2 Fixture.test_data)) /\
    reserve Fixture.cedar (Many [SpecFile Fixture.file0; SpecFile Fixture.file2])
            false false db1 = (db1, Ok out2) /\
    returned out2 = returned out1.
Proof.
  apply (reserve_creates_once_then_nothing
           Fixture.cedar Fixture.tag1
           (Many [SpecFile Fixture.file0; SpecFile Fixture.file2])
           false Fixture.test_data [Fixture.file0; Fixture.file2]
           Fixture.file2 2);
    try reflexivity.
  simpl. right. left. reflexivity.
Defined.

(* The specification asks nothing of the records that are there before
   the first call.  After a manager using tag2 has reserved file2, the
   first call for file2 of the manager using tag1 finds the transfer
   request there and creates none. *)
Lemma first_reserve_finds_pending_request :
  let cedar2 := mkManager Fixture.cedar_online
                          [Fixture.src1; Fixture.src2; Fixture.src3]
                          (Some Fixture.tag2) in
  let db := fst (reserve cedar2 (One (SpecFile Fixture.file2)) false false
                         Fixture.test_data) in
  let db1 := fst (reserve Fixture.cedar (One (SpecFile Fixture.file2)) false false
                          db) in
  has_copy_on_destination Fixture.cedar db Fixture.file2 = false /\
  available_only_on Fixture.cedar db Fixture.file2 2 = true /\
  has_reservation Fixture.cedar db Fixture.file2 = false /\
  length (reservations_of Fixture.file2 db1) =
    S (length (reservations_of Fixture.file2 db)) /\
  length (requests_of Fixture.file2 db1) = length (requests_of Fixture.file2 db) /\
  length (requests_of Fixture.file2 db1) <> S (length (requests_of Fixture.file2 db)).
Proof.
  cbv zeta. repeat split; try reflexivity.
  vm_compute. discriminate.
Qed.

(** ** all_reserved_files *)

Lemma matching_reservations_same_file (self : FileManager)
      (tl : list FileReservationTag) (db : Database) (f g : ArchiveFile) :
  file_id g = file_id f ->
  matching_reservations self tl db g = matching_reservations self tl db f.
Proof. intros E. unfold matching_reservations. now rewrite E. Qed.

Lemma occurrences_repeat (f g : ArchiveFile) {A} (m : list A) :
  occurrences f (map (fun _ => g) m) =
  if (file_id g =? file_id f)%nat then length m else 0.
Proof.
  unfold occurrences.
  induction m as [|x m IH]; simpl.
  - now destruct (file_id g =? file_id f)%nat.
  - destruct (file_id g =? file_id f)%nat; simpl; now rewrite IH.
Qed.

Lemma occurrences_join (self : FileManager) (tl : list FileReservationTag)
      (db : Database) (f : ArchiveFile) (fs : list ArchiveFile) :
  NoDup (map file_id fs) ->
  occurrences f
    (flat_map (fun g => map (fun _ => g) (matching_reservations self tl db g)) fs) =
  if mentions fs f then length (matching_reservations self tl db f) else 0.
Proof.
  induction fs as [|g fs IH]; intros Hnd; simpl; [reflexivity|].
  inversion Hnd as [|x l Hnotin Hnd']; subst.
  unfold occurrences in *. rewrite filter_app, length_app.
  fold (occurrences f (map (fun _ => g) (matching_reservations self tl db g))).
  rewrite occurrences_repeat, (IH Hnd').
  destruct (file_id g =? file_id f)%nat eqn:E; simpl; [|reflexivity].
  apply Nat.eqb_eq in E.
  rewrite (matching_reservations_same_file self tl db f g E).
  destruct (mentions fs f) eqn:Hm; [|apply Nat.add_0_r].
  exfalso. apply Hnotin. unfold mentions in Hm.
  apply existsb_exists in Hm as (h & Hin & Hh). apply Nat.eqb_eq in Hh.
  rewrite E, <- Hh. now apply in_map.
Qed.

(** C7 (as the code has it).  With the tags resolved to [tl],
    all_reserved_files returns a list, never an error.  A file is in the
    list exactly when it has at least one reservation record on the
    destination node under a tag of [tl]; it is there once for each such
    record, so a file reserved under several of the tags appears several
    times.  The list is empty when no reservation record matches. *)
Theorem all_reserved_files_one_row_per_reservation
        (self : FileManager) (tags : option (list FileReservationTag))
        (db : Database) (tl : list FileReservationTag) :
  _autotags self tags = Ok tl ->
  NoDup (map file_id (files db)) ->
  exists l,
    all_reserved_files self tags db = Ok l /\
    (forall f, In f l <->
               In f (files db) /\ matching_reservations self tl db f <> []) /\
    (forall f, In f (files db) ->
               occurrences f l = length (matching_reservations self tl db f)) /\
    ((forall f, In f (files db) -> matching_reservations self tl db f = []) ->
     l = []).
Proof.
  intros Htags Hnd. unfold all_reserved_files. rewrite Htags. cbn [rbind].
  eexists. split; [reflexivity|].
  fold (matching_reservations self tl db).
  change (flat_map _ (files db))
    with (flat_map (fun g => map (fun _ => g) (matching_reservations self tl db g))
                   (files db)).
  split; [|split].
  - intros f. rewrite in_flat_map. split.
    + intros (g & Hg & Hin). apply in_map_iff in Hin as (r & <- & Hr).
      split; [exact Hg|]. intros E. rewrite E in Hr. destruct Hr.
    + intros (Hf & Hne). exists f. split; [exact Hf|].
      destruct (matching_reservations self tl db f) as [|r m]; [now elim Hne|].
      now left.
  - intros f Hf. rewrite (occurrences_join self tl db f (files db) Hnd).
    now rewrite (In_mentions _ _ Hf).
  - intros Hnone. induction (files db) as [|g fs IH]; [reflexivity|]. simpl.
    rewrite (Hnone g) by now left. simpl.
    apply IH.
    + now inversion Hnd.
    + intros f Hf. apply Hnone. now right.
Qed.

Lemma all_reserved_files_one_row_per_reservation_witness :
  exists l,
    all_reserved_files Fixture.cedar None
      (with_reservations Fixture.test_data
         [mkReservation 1 1 1; mkReservation 3 1 1; mkReservation 3 1 2]) = Ok l /\
    occurrences Fixture.file2 l = 1.
Proof.
  destruct (all_reserved_files_one_row_per_reservation
              Fixture.cedar None
              (with_reservations Fixture.test_data
                 [mkReservation 1 1 1; mkReservation 3 1 1; mkReservation 3 1 2])
              [Fixture.tag1] eq_refl)
    as (l & Hl & _ & Hocc & _).
  - simpl. repeat constructor; simpl; intuition discriminate.
  - exists l. split; [exact Hl|].
    apply (Hocc Fixture.file2). simpl. tauto.
Defined.

(* a file reserved under two of the given tags is listed twice *)
Lemma all_reserved_files_repeats_a_file :
  all_reserved_files Fixture.cedar (Some [Fixture.tag1; Fixture.tag2])
    (with_reservations Fixture.test_data
       [mkReservation 1 1 1; mkReservation 1 1 2]) =
  Ok [Fixture.file0; Fixture.file0] /\
  ~ NoDup [Fixture.file0; Fixture.file0].
Proof.
  split; [reflexivity|].
  intros H. inversion H as [|x l Hnotin _]; subst.
  apply Hnotin. now left.
Qed.

(** ** reserved_size *)

Lemma _autotags_no_tag (self : FileManager) :
  _tag self = None ->
  _autotags self None = Raise ValueError_no_tag /\
  _autotags self (Some []) = Raise ValueError_no_tag.
Proof. intros Ht. unfold _autotags. simpl. now rewrite Ht. Qed.

(** C4 (the code at the input of the claim).  With no tags given and no
    tag in use reserved_size fails with the ValueError of _autotags, as
    claimed.  With a tag in use it does not return 0, nor any number: the
    query refers to [pw.SUM], which peewee does not define, so the call
    fails with an AttributeError, whatever the database holds and in
    particular when no file is reserved. *)
Theorem reserved_size_never_returns
        (node : StorageNode) (sources : list StorageNode) (db : Database) :
  reserved_size (mkManager node sources None) None db = Raise ValueError_no_tag /\
  (forall t tags,
      reserved_size (mkManager node sources (Some t)) tags db =
      Raise (AttributeError "module 'peewee'" "SUM")) /\
  reserved_size Fixture.cedar None Fixture.test_data <> Ok (Some 0%Z).
Proof.
  split; [reflexivity|]. split; [|discriminate].
  intros t tags. unfold reserved_size, _autotags.
  destruct (truthy tags); reflexivity.
Qed.

(** ** Normalisation of file specifications *)

Lemma split_sep_names (s : string) :
  forall cur, starts_with_sep cur = false ->
              forall x, In x (split_sep s cur) -> starts_with_sep x = false.
Proof.
  induction s as [|c s IH]; intros cur Hcur x Hin; simpl in Hin.
  - destruct Hin as [<-|[]]. exact Hcur.
  - destruct (Ascii.eqb c "/"%char) eqn:E.
    + destruct Hin as [<-|Hin]; [exact Hcur|].
      now apply (IH "" eq_refl).
    + apply (IH (cur ++ String c "")%string); [|exact Hin].
      destruct cur; simpl; [exact E | exact Hcur].
Qed.

Lemma Path_of_string_relative (s : string) :
  leading_seps s = 0 ->
  anchor (Path_of_string s) = "" /\
  forall x, In x (names (Path_of_string s)) -> starts_with_sep x = false.
Proof.
  intros H0. unfold Path_of_string. rewrite H0. simpl. split; [reflexivity|].
  intros x Hin. apply filter_In in Hin as (Hin & _).
  now apply (split_sep_names s "" eq_refl).
Qed.

Lemma Path_of_string_absolute (s : string) :
  leading_seps s <> 0 ->
  exists a, parts (Path_of_string s) = a :: names (Path_of_string s) /\
            starts_with_sep a = true.
Proof.
  intros H0. unfold Path_of_string, parts.
  destruct (leading_seps s) as [|[|[|n]]]; [now elim H0| | |]; simpl;
    eexists; split; reflexivity.
Qed.

(* Whatever the string, a relative path is handed to relative_to; under
   a destination whose root is absolute it is refused. *)
Lemma relative_string_refused (self : FileManager) (db : Database) (s : string) :
  leading_seps (node_root (_node self)) <> 0 ->
  leading_seps s = 0 ->
  fixup_one self db (SpecStr s) =
  Raise (ValueError_not_relative
           (parts (Path_of_string s))
           (parts (Path_of_string (node_root (_node self))))).
Proof.
  intros Hroot Hs.
  destruct (Path_of_string_relative s Hs) as (Ha & Hnames).
  destruct (Path_of_string_absolute _ Hroot) as (a & Hparts & Hsep).
  unfold fixup_one, path_to_tuple, bool_of_method, relative_to.
  rewrite Hparts. simpl length. cbn [Nat.eqb].
  unfold parts at 1. rewrite Ha. simpl (_ =? _)%string.
  destruct (names (Path_of_string s)) as [|x l] eqn:En.
  - simpl. unfold parts. rewrite Ha, En. reflexivity.
  - assert (Hx : (x =? a) = false).
    { apply String.eqb_neq. intros ->.
      rewrite (Hnames a) in Hsep; [discriminate | now left]. }
    simpl. rewrite Hx. simpl. unfold parts. rewrite Ha, En. reflexivity.
Qed.

(** C5 (the code at the input of the claim).  The destination of the test
    data has the root /test.  The relative path acqpath/file2 has exactly
    two segments, and the pair made of them resolves to file2; yet the
    path is not interpreted as that pair: the condition [file.is_absolute]
    is the method itself, which is true, so the path goes through
    relative_to and the call fails with the ValueError of pathlib.  Only
    the path under the root is accepted. *)
Theorem relative_two_segment_path_refused :
  _fixup_filespec Fixture.cedar (One (SpecStr "acqpath/file2")) Fixture.test_data =
    Raise (ValueError_not_relative ["acqpath"; "file2"] ["/"; "test"]) /\
  _fixup_filespec Fixture.cedar (One (SpecPath (mkPath "" ["acqpath"; "file2"])))
                  Fixture.test_data =
    Raise (ValueError_not_relative ["acqpath"; "file2"] ["/"; "test"]) /\
  _fixup_filespec Fixture.cedar (One (SpecTuple ["acqpath"; "file2"]))
                  Fixture.test_data = Ok [Fixture.file2] /\
  _fixup_filespec Fixture.cedar (One (SpecStr "/test/acqpath/file2"))
                  Fixture.test_data = Ok [Fixture.file2].
Proof. repeat split. Qed.

(* an entry that fails makes the call fail with its exception, whatever
   follows it in the list, when the entries before it are valid *)
Lemma fixup_loop_first_failure (self : FileManager) (db : Database)
      (pre : list FileSpec) (bad : FileSpec) (rest : list FileSpec) (e : exn) :
  Forall (fun x => exists f, fixup_one self db x = Ok f) pre ->
  fixup_one self db bad = Raise e ->
  forall out, fixup_loop self db (pre ++ bad :: rest) out = Raise e.
Proof.
  intros Hpre Hbad. induction Hpre as [|x pre (f & Hx) _ IH]; intros out; simpl.
  - now rewrite Hbad.
  - rewrite Hx. simpl. apply IH.
Qed.

Lemma tuple_to_file_unresolved (db : Database) (acq name : string) :
  find (file_named db acq name) (files db) = None ->
  tuple_to_file db [acq; name] =
  Raise (AttributeError "module 'peewee'" "NotFoundError").
Proof.
  intros Hnone. unfold tuple_to_file, get. simpl. now rewrite Hnone.
Qed.

(** C6 (the code at the input of the claim).  The pair (acqpath, nofile)
    names no file of the test data.  The call fails at that entry, with
    no list returned and whatever follows the entry, as claimed; but the
    failure is not the ValueError naming the two segments: the handler is
    written [except pw.NotFoundError], peewee has no such attribute, and
    the call ends with an AttributeError. *)
Theorem unresolved_pair_raises_attribute_error :
  forall rest,
    _fixup_filespec Fixture.cedar
      (Many (SpecTuple ["acqpath"; "file0"] :: SpecTuple ["acqpath"; "nofile"] :: rest))
      Fixture.test_data =
    Raise (AttributeError "module 'peewee'" "NotFoundError") /\
    _fixup_filespec Fixture.cedar
      (Many (SpecTuple ["acqpath"; "file0"] :: SpecTuple ["acqpath"; "nofile"] :: rest))
      Fixture.test_data <>
    Raise (ValueError_no_such_file "acqpath" "nofile").
Proof.
  intros rest.
  assert (E : _fixup_filespec Fixture.cedar
                (Many (SpecTuple ["acqpath"; "file0"]
                       :: SpecTuple ["acqpath"; "nofile"] :: rest))
                Fixture.test_data =
              Raise (AttributeError "module 'peewee'" "NotFoundError")).
  { unfold _fixup_filespec.
    apply (fixup_loop_first_failure Fixture.cedar Fixture.test_data
             [SpecTuple ["acqpath"; "file0"]] (SpecTuple ["acqpath"; "nofile"])).
    - constructor; [|constructor]. eexists. reflexivity.
    - reflexivity. }
  split; [exact E|]. rewrite E. discriminate.
Qed.

(** ** The ledger query *)

(** C9 (the code at the input of the claim).  reserved_in_node does not
    use its argument [node]: whatever the backend makes of the comparison
    of the node column with the class StorageNode, the answer is the same
    for every node.  With one reservation of file0 on cedar_online, the
    tags reserving file0 are [1] on cedar_online and none on src1, so the
    method gives the answer of the claim for at most one of the two. *)
Theorem reserved_in_node_ignores_node (backend : option (nat -> bool)) :
  (forall file n1 n2 db,
      reserved_in_node backend file n1 db = reserved_in_node backend file n2 db) /\
  let db := with_reservations Fixture.test_data [mkReservation 1 1 1] in
  tags_reserving Fixture.file0 Fixture.cedar_online db = [1] /\
  tags_reserving Fixture.file0 Fixture.src1 db = [] /\
  ~ (reserved_in_node backend Fixture.file0 Fixture.cedar_online db =
       Ok (tags_reserving Fixture.file0 Fixture.cedar_online db) /\
     reserved_in_node backend Fixture.file0 Fixture.src1 db =
       Ok (tags_reserving Fixture.file0 Fixture.src1 db)).
Proof.
  split; [reflexivity|]. cbv zeta.
  split; [reflexivity|]. split; [reflexivity|].
  intros (H1 & H2).
  change (reserved_in_node backend Fixture.file0 Fixture.src1)
    with (reserved_in_node backend Fixture.file0 Fixture.cedar_online) in H2.
  rewrite H1 in H2. discriminate.
Qed.

(** * Further properties *)

(** ** Configuration of a manager: add_source, use_tag, _autotags *)

Lemma fold_append_source (l : list StorageNode) :
  forall self,
    fold_left append_source l self =
    mkManager (_node self) (_sources self ++ l) (_tag self).
Proof.
  induction l as [|n l IH]; intros self; simpl.
  - rewrite app_nil_r. now destruct self.
  - rewrite IH. simpl. now rewrite <- app_assoc.
Qed.

(** X1.  add_source fails, with the TypeError, exactly on an argument that
    is neither a node nor a group.  Otherwise it keeps the destination and
    the tag of the manager and appends to its sources: the node itself, or
    all the nodes of the table whose group is the given one, in the order
    of the table; nothing is removed and nothing is deduplicated. *)
Theorem add_source_appends
        (self : FileManager) (src : SourceArg) (db : Database) :
  match src with
  | IsOther => add_source self src db = Raise TypeError_source
  | _ =>
      add_source self src db =
      Ok (mkManager (_node self) (_sources self ++ added_sources src db) (_tag self))
  end /\
  (forall self', add_source self src db = Ok self' ->
                 length (_sources self') =
                 length (_sources self) + length (added_sources src db)) /\
  (forall g n, src = IsGroup g ->
               (In n (added_sources src db) <->
                In n (nodes db) /\ node_group n = group_id g)).
Proof.
  split; [|split].
  - destruct src as [n|g|]; simpl; [reflexivity| |reflexivity].
    now rewrite fold_append_source.
  - intros self' H. destruct src as [n|g|]; simpl in H.
    + injection H as <-. simpl. now rewrite length_app.
    + rewrite fold_append_source in H. injection H as <-. simpl.
      now rewrite length_app.
    + discriminate.
  - intros g n ->. simpl. rewrite filter_In, Nat.eqb_eq. reflexivity.
Qed.

Lemma add_source_appends_witness :
  add_source (FileManager_init Fixture.cedar_online)
             (IsGroup Fixture.cedar_nearline) Fixture.test_data =
  Ok (mkManager Fixture.cedar_online
                [Fixture.src1; Fixture.src2; Fixture.src3] None).
Proof.
  destruct (add_source_appends (FileManager_init Fixture.cedar_online)
                               (IsGroup Fixture.cedar_nearline)
                               Fixture.test_data) as (H & _).
  exact H.
Defined.

Lemma find_ext {A} (p q : A -> bool) (l : list A) :
  (forall x, p x = q x) -> find p l = find q l.
Proof.
  intros H. induction l as [|x l IH]; simpl; [reflexivity|].
  now rewrite H, IH.
Qed.

Lemma in_sources_append (self : FileManager) (n : StorageNode) (m : nat) :
  in_sources (append_source self n) m = in_sources self m || (node_id n =? m)%nat.
Proof.
  unfold in_sources, append_source. simpl.
  rewrite existsb_app. simpl. now rewrite orb_false_r.
Qed.

Lemma for_each_ext {A B} (body body' : A -> B -> M A) (l : list B) :
  (forall acc x db, body acc x db = body' acc x db) ->
  forall acc db, for_each body acc l db = for_each body' acc l db.
Proof.
  intros H. induction l as [|x l IH]; intros acc db; simpl; [reflexivity|].
  unfold bind. rewrite H.
  destruct (body' acc x db) as [db' [acc'|e]]; [apply IH | reflexivity].
Qed.

(* normalisation looks at the destination only *)
Lemma fixup_same_node (self' self : FileManager) (files : FilesArg) (db : Database) :
  _node self' = _node self ->
  _fixup_filespec self' files db = _fixup_filespec self files db.
Proof.
  intros Hn. unfold _fixup_filespec.
  generalize (@nil ArchiveFile) as out.
  induction (match files with One file => [file] | Many l => l end)
    as [|x l IH]; intros out; simpl; [reflexivity|].
  assert (E : fixup_one self' db x = fixup_one self db x).
  { unfold fixup_one, path_to_tuple. now rewrite Hn. }
  rewrite E. destruct (fixup_one self db x); simpl; [apply IH | reflexivity].
Qed.

(** X2.  Adding a node that is among the sources already changes nothing
    that the manager computes: the state and chosen source of every file
    are as before, and so is every call of reserve, in its result and in
    what it writes. *)
Theorem add_source_again_is_harmless
        (self : FileManager) (n : StorageNode) :
  in_sources self (node_id n) = true ->
  (forall db file,
      _filecopy_state (append_source self n) db file = _filecopy_state self db file) /\
  (forall files check_only verbose db,
      reserve (append_source self n) files check_only verbose db =
      reserve self files check_only verbose db).
Proof.
  intros Hin.
  assert (Hsrc : forall m, in_sources (append_source self n) m = in_sources self m).
  { intros m. rewrite in_sources_append.
    destruct (node_id n =? m)%nat eqn:E; [|apply orb_false_r].
    apply Nat.eqb_eq in E. subst m. now rewrite Hin. }
  assert (Hstate : forall db file,
             _filecopy_state (append_source self n) db file =
             _filecopy_state self db file).
  { intros db file. rewrite !_filecopy_state_eq.
    unfold has_copy_on_destination, chosen_source, has_reservation, reserved_by.
    cbn [append_source _node _tag].
    rewrite (find_ext (copy_on file (in_sources (append_source self n)))
                      (copy_on file (in_sources self)));
      [reflexivity|].
    intros c. unfold copy_on. now rewrite Hsrc. }
  split; [exact Hstate|].
  intros files check_only verbose db.
  rewrite !reserve_unfold.
  rewrite (fixup_same_node (append_source self n) self files db eq_refl).
  destruct (_fixup_filespec self files db) as [fl|e]; [|reflexivity].
  rewrite (for_each_ext (reserve_step (append_source self n) check_only)
                        (reserve_step self check_only)); [reflexivity|].
  intros acc x d. unfold reserve_step, bind, query. now rewrite Hstate.
Qed.

Lemma add_source_again_is_harmless_witness :
  reserve (append_source Fixture.cedar Fixture.src1)
          (One (SpecFile Fixture.file3)) false true Fixture.test_data =
  reserve Fixture.cedar (One (SpecFile Fixture.file3)) false true Fixture.test_data.
Proof.
  destruct (add_source_again_is_harmless Fixture.cedar Fixture.src1 eq_refl)
    as (_ & H).
  apply H.
Defined.

Lemma find_some_name (name : string) (l : list FileReservationTag) :
  (exists t, find (fun t => tag_name t =? name) l = Some t) <->
  (exists t, In t l /\ tag_name t = name).
Proof.
  split.
  - intros (t & H). apply find_some in H as (Hin & Hn).
    exists t. split; [exact Hin | now apply String.eqb_eq].
  - intros (t & Hin & Hn).
    destruct (find (fun t => tag_name t =? name) l) as [u|] eqn:E;
      [now exists u|].
    apply (find_none _ _ E) in Hin. rewrite Hn, String.eqb_refl in Hin.
    discriminate.
Qed.

(** X3.  use_tag keeps the destination and the sources and replaces the
    tag in use, whatever it was.  Given a tag record it never fails.
    Given a name it succeeds exactly when the table of tags has a tag of
    that name, and then uses such a tag; otherwise it fails with
    DoesNotExist and no manager is returned. *)
Theorem use_tag_replaces_tag
        (self : FileManager) (tag : TagArg) (db : Database) :
  (forall self',
      use_tag self tag db = Ok self' ->
      _node self' = _node self /\ _sources self' = _sources self /\
      exists t, _tag self' = Some t /\
                match tag with
                | TagRecord r => t = r
                | TagName name => In t (tags db) /\ tag_name t = name
                end) /\
  (forall e, use_tag self tag db = Raise e ->
             e = DoesNotExist "FileReservationTag" /\
             exists name, tag = TagName name /\
                          forall t, In t (tags db) -> tag_name t <> name) /\
  (forall previous,
      use_tag (mkManager (_node self) (_sources self) previous) tag db =
      use_tag self tag db).
Proof.
  split; [|split].
  - intros self' H. destruct tag as [r|name]; unfold use_tag, get in H; simpl in H.
    + injection H as <-. simpl. repeat split. now exists r.
    + destruct (find (fun t => tag_name t =? name) (tags db)) as [t|] eqn:E;
        simpl in H; [|discriminate].
      injection H as <-. simpl. repeat split. exists t. split; [reflexivity|].
      apply find_some in E as (Hin & Hn). split; [exact Hin|].
      now apply String.eqb_eq.
  - intros e H. destruct tag as [r|name]; unfold use_tag, get in H; simpl in H;
      [discriminate|].
    destruct (find (fun t => tag_name t =? name) (tags db)) as [t|] eqn:E;
      simpl in H; [discriminate|].
    injection H as <-. split; [reflexivity|].
    exists name. split; [reflexivity|].
    intros t Hin Hn. apply (find_none _ _ E) in Hin.
    rewrite Hn, String.eqb_refl in Hin. discriminate.
  - intros previous. reflexivity.
Qed.

Lemma use_tag_replaces_tag_witness :
  _node Fixture.cedar = _node Fixture.cedar_no_tag /\
  _sources Fixture.cedar = _sources Fixture.cedar_no_tag /\
  exists t, _tag Fixture.cedar = Some t /\
            In t (tags Fixture.test_data) /\ tag_name t = "tag1".
Proof.
  destruct (use_tag_replaces_tag Fixture.cedar_no_tag (TagName "tag1")
                                 Fixture.test_data) as (H & _).
  exact (H Fixture.cedar eq_refl).
Defined.

(** X4.  _autotags never gives an empty list.  A non-empty list of tags
    given by the caller is returned as it is, whatever the tag in use;
    with no list, or an empty one, the result is the tag in use alone; the
    call fails, with the ValueError, exactly when there is neither. *)
Theorem _autotags_resolution
        (self : FileManager) (tags : option (list FileReservationTag)) :
  (forall l, _autotags self tags = Ok l ->
             l <> [] /\
             (tags = Some l \/
              (truthy tags = false /\ exists t, _tag self = Some t /\ l = [t]))) /\
  (forall e, _autotags self tags = Raise e ->
             e = ValueError_no_tag /\ truthy tags = false /\ _tag self = None) /\
  (forall x l, _autotags self (Some (x :: l)) = Ok (x :: l)).
Proof.
  split; [|split].
  - intros l H. unfold _autotags in H.
    destruct tags as [[|x tl]|]; simpl in H.
    + destruct (_tag self) as [t|]; [|discriminate].
      injection H as <-. split; [discriminate|]. right. split; [reflexivity|].
      now exists t.
    + injection H as <-. split; [discriminate|]. now left.
    + destruct (_tag self) as [t|]; [|discriminate].
      injection H as <-. split; [discriminate|]. right. split; [reflexivity|].
      now exists t.
  - intros e H. unfold _autotags in H.
    destruct tags as [[|x tl]|]; simpl in H; try discriminate;
      destruct (_tag self); try discriminate; injection H as <-; auto.
  - reflexivity.
Qed.

Lemma _autotags_resolution_witness :
  [Fixture.tag2] <> [] /\
  (Some [Fixture.tag2] = Some [Fixture.tag2] \/
   (truthy (Some [Fixture.tag2]) = false /\
    exists t, _tag Fixture.cedar = Some t /\ [Fixture.tag2] = [t])).
Proof.
  destruct (_autotags_resolution Fixture.cedar (Some [Fixture.tag2])) as (H & _).
  exact (H [Fixture.tag2] eq_refl).
Defined.

(** ** CedarManager *)



(** ** The state of a file *)

(** X6.  _filecopy_state never fails and reads the three flags off the
    tables: PRESENT is set exactly when the destination has a copy record
    of the file with the has-flag; AVAILABLE is set exactly when a source
    is returned; a returned source is one of the sources of the manager
    and has such a copy record, and when none is returned no source has
    one; RESERVED is set exactly when a reservation record exists for the
    file, the destination and the tag in use; RECALLED is never set. *)
Theorem _filecopy_state_reads_tables
        (self : FileManager) (db : Database) (file : ArchiveFile) :
  exists state source,
    _filecopy_state self db file = Ok (state, source) /\
    (flag_in PRESENT state = true <-> PRESENT_on_destination self db file) /\
    (flag_in AVAILABLE state = true <-> exists n, source = Some n) /\
    (forall n, source = Some n ->
               in_sources self n = true /\
               exists c, In c (copies db) /\ copy_file c = file_id file /\
                         copy_node c = n /\ has_file c = "Y") /\
    (source = None ->
     forall c, In c (copies db) -> copy_file c = file_id file ->
               has_file c = "Y" -> in_sources self (copy_node c) = false) /\
    (flag_in RESERVED state = true <->
     exists t r, _tag self = Some t /\ In r (reservations db) /\
                 res_file r = file_id file /\
                 res_node r = node_id (_node self) /\
                 res_tag r = tag_id t) /\
    flag_in RECALLED state = false.
Proof.
  eexists _, _. split; [apply _filecopy_state_eq|].
  destruct (flag_in_flags (has_copy_on_destination self db file)
                          (is_some (chosen_source self db file))
                          (has_reservation self db file))
    as (-> & -> & -> & -> & _).
  split; [apply has_copy_on_destination_spec|].
  split; [|split; [|split; [|split; [|reflexivity]]]].
  - destruct (chosen_source self db file) as [n|]; simpl; split;
      try discriminate; eauto.
    intros (n & H). discriminate.
  - intros n Hn. unfold chosen_source in Hn.
    destruct (find (copy_on file (in_sources self)) (copies db)) as [c|] eqn:E;
      [|discriminate].
    injection Hn as <-. apply find_some in E as (Hin & Hc).
    unfold copy_on in Hc.
    apply andb_prop in Hc as (Hc & Hy). apply andb_prop in Hc as (Hf & Hs).
    split; [exact Hs|]. exists c.
    apply Nat.eqb_eq in Hf. apply String.eqb_eq in Hy. auto.
  - intros Hn c Hin Hf Hy. unfold chosen_source in Hn.
    destruct (find (copy_on file (in_sources self)) (copies db)) as [c'|] eqn:E;
      [discriminate|].
    apply (find_none _ _ E) in Hin. unfold copy_on in Hin.
    rewrite Hf, Hy, Nat.eqb_refl in Hin. simpl in Hin.
    now rewrite andb_true_r in Hin.
  - unfold has_reservation, reserved_by. rewrite existsb_exists. split.
    + intros (r & Hin & H).
      destruct (_tag self) as [t|]; [|now rewrite andb_false_r in H].
      apply andb_prop in H as (H & Hn). apply andb_prop in H as (Hf & Ht).
      apply Nat.eqb_eq in Hf, Hn, Ht. exists t, r. auto.
    + intros (t & r & Ht & Hin & Hf & Hn & Hrt). exists r. split; [exact Hin|].
      rewrite Ht, Hf, Hn, Hrt, !Nat.eqb_refl. reflexivity.
Qed.

Lemma _filecopy_state_reads_tables_witness :
  in_sources Fixture.cedar 2 = true /\
  exists c, In c (copies Fixture.test_data) /\
            copy_file c = file_id Fixture.file3 /\
            copy_node c = 2 /\ has_file c = "Y".
Proof.
  destruct (_filecopy_state_reads_tables Fixture.cedar Fixture.test_data
                                         Fixture.file3)
    as (state & source & E & _ & _ & H & _).
  injection E as _ <-. exact (H 2 eq_refl).
Defined.

(** X7.  For a manager as __init__ leaves it, with no source and no tag,
    a file is never AVAILABLE and never RESERVED: its state is PRESENT or
    nothing, and no source is returned. *)
Theorem _filecopy_state_of_new_manager
        (node : StorageNode) (db : Database) (file : ArchiveFile) :
  _filecopy_state (FileManager_init node) db file =
  Ok (if has_copy_on_destination (FileManager_init node) db file
      then PRESENT else 0%Z,
      None).
Proof.
  rewrite _filecopy_state_eq.
  assert (Hs : chosen_source (FileManager_init node) db file = None).
  { unfold chosen_source.
    rewrite (find_ext _ (fun _ => false)).
    - induction (copies db) as [|c l IH]; [reflexivity | exact IH].
    - intros c. unfold copy_on, in_sources. simpl.
      now rewrite andb_false_r. }
  assert (Hr : has_reservation (FileManager_init node) db file = false).
  { unfold has_reservation, reserved_by. simpl.
    induction (reservations db) as [|r l IH]; simpl; [reflexivity|].
    rewrite IH. now rewrite andb_false_r. }
  rewrite Hs, Hr.
  now destruct (has_copy_on_destination (FileManager_init node) db file).
Qed.

(** ** Normalisation: shape of the result *)

Lemma fixup_loop_spec (self : FileManager) (db : Database) (l : list FileSpec) :
  forall out fl,
    fixup_loop self db l out = Ok fl <->
    exists fl', fl = out ++ fl' /\
                Forall2 (fun x f => fixup_one self db x = Ok f) l fl'.
Proof.
  induction l as [|x l IH]; intros out fl; simpl.
  - split.
    + intros H. injection H as <-. exists []. split; [now rewrite app_nil_r|].
      constructor.
    + intros (fl' & -> & H). inversion H. now rewrite app_nil_r.
  - destruct (fixup_one self db x) as [f|e] eqn:E; simpl.
    + rewrite IH. split.
      * intros (fl' & -> & H). exists (f :: fl'). split.
        -- now rewrite <- app_assoc.
        -- now constructor.
      * intros (fl' & -> & H). inversion H as [|? g ? fl'' Hx Hrest]; subst.
        rewrite E in Hx. injection Hx as <-.
        exists fl''. split; [now rewrite <- app_assoc | exact Hrest].
    + split; [discriminate|].
      intros (fl' & _ & H). inversion H as [|? g ? fl'' Hx Hrest]; subst.
      rewrite E in Hx. discriminate.
Qed.

(** X8.  _fixup_filespec succeeds exactly when every entry normalises, and
    then its result has one file for each entry, in the order of the
    list: entries are neither dropped, nor merged, nor reordered.  A
    single specification is treated as the list of that one entry. *)
Theorem _fixup_filespec_elementwise
        (self : FileManager) (files : FilesArg) (db : Database)
        (fl : list ArchiveFile) :
  (_fixup_filespec self files db = Ok fl <->
   Forall2 (fun x f => fixup_one self db x = Ok f) (listify files) fl) /\
  (_fixup_filespec self files db = Ok fl -> length fl = length (listify files)) /\
  (forall x, _fixup_filespec self (One x) db = _fixup_filespec self (Many [x]) db).
Proof.
  assert (H : _fixup_filespec self files db = Ok fl <->
              Forall2 (fun x f => fixup_one self db x = Ok f) (listify files) fl).
  { unfold _fixup_filespec. fold (listify files). rewrite fixup_loop_spec.
    split.
    - intros (fl' & -> & H). exact H.
    - intros H. now exists fl. }
  split; [exact H|]. split; [|reflexivity].
  intros Hok. apply H in Hok. symmetry. eapply Forall2_length, Hok.
Qed.

Lemma _fixup_filespec_elementwise_witness :
  length [Fixture.file2; Fixture.file0; Fixture.file2] =
  length (listify (Many [SpecTuple ["acqpath"; "file2"]; SpecFile Fixture.file0;
                         SpecStr "/test/acqpath/file2"])).
Proof.
  destruct (_fixup_filespec_elementwise
              Fixture.cedar
              (Many [SpecTuple ["acqpath"; "file2"]; SpecFile Fixture.file0;
                     SpecStr "/test/acqpath/file2"])
              Fixture.test_data
              [Fixture.file2; Fixture.file0; Fixture.file2]) as (_ & H & _).
  exact (H eq_refl).
Defined.

Lemma tuple_to_file_outcomes (db : Database) (t : list string) :
  match tuple_to_file db t with
  | Ok f => exists acq name, t = [acq; name] /\
                             find (file_named db acq name) (files db) = Some f
  | Raise e =>
      (e = ValueError_path_elements t /\ length t <> 2) \/
      (e = AttributeError "module 'peewee'" "NotFoundError" /\
       exists acq name, t = [acq; name] /\
                        find (file_named db acq name) (files db) = None)
  end.
Proof.
  unfold tuple_to_file, get.
  destruct t as [|a [|n [|x t]]]; simpl; try (left; split; [reflexivity|lia]).
  destruct (find (file_named db a n) (files db)) as [f|] eqn:E; simpl.
  - now exists a, n.
  - right. split; [reflexivity|]. now exists a, n.
Qed.

(** X9.  The ways _fixup_filespec can fail.  A failure is the ValueError
    of pathlib for a path that is not under the root, the ValueError for
    a tuple or path that has not two elements, or the AttributeError of
    the handler for a pair that names no file; the ValueError naming the
    acquisition and the file is never raised. *)
Theorem _fixup_filespec_failures
        (self : FileManager) (files : FilesArg) (db : Database) (e : exn) :
  _fixup_filespec self files db = Raise e ->
  (exists p r, e = ValueError_not_relative p r) \/
  (exists t, e = ValueError_path_elements t /\ length t <> 2) \/
  e = AttributeError "module 'peewee'" "NotFoundError".
Proof.
  assert (Hone : forall x e', fixup_one self db x = Raise e' ->
             (exists p r, e' = ValueError_not_relative p r) \/
             (exists t, e' = ValueError_path_elements t /\ length t <> 2) \/
             e' = AttributeError "module 'peewee'" "NotFoundError").
  { assert (Htup : forall t e', tuple_to_file db t = Raise e' ->
               (exists p r, e' = ValueError_not_relative p r) \/
               (exists t, e' = ValueError_path_elements t /\ length t <> 2) \/
               e' = AttributeError "module 'peewee'" "NotFoundError").
    { intros t e' H. pose proof (tuple_to_file_outcomes db t) as Ho.
      rewrite H in Ho. destruct Ho as [(-> & Hl)|(-> & _)]; eauto. }
    assert (Hpath : forall p e',
               rbind (path_to_tuple self p) (tuple_to_file db) = Raise e' ->
               (exists p r, e' = ValueError_not_relative p r) \/
               (exists t, e' = ValueError_path_elements t /\ length t <> 2) \/
               e' = AttributeError "module 'peewee'" "NotFoundError").
    { intros p e' H. unfold path_to_tuple, bool_of_method, relative_to in H.
      match type of H with
      | context [if ?c then Raise _ else _] => destruct c
      end; simpl in H.
      - injection H as <-. eauto.
      - now apply Htup in H. }
    intros [s|p|t|f] e' H; simpl in H; eauto. discriminate. }
  unfold _fixup_filespec. fold (listify files).
  generalize (@nil ArchiveFile) as out.
  induction (listify files) as [|x l IH]; intros out H; simpl in H;
    [discriminate|].
  destruct (fixup_one self db x) as [f|e'] eqn:E; simpl in H.
  - now apply IH in H.
  - injection H as <-. now apply Hone in E.
Qed.

Lemma _fixup_filespec_failures_witness :
  (exists p r, ValueError_path_elements ["acqpath"] = ValueError_not_relative p r) \/
  (exists t, ValueError_path_elements ["acqpath"] = ValueError_path_elements t /\
             length t <> 2) \/
  ValueError_path_elements ["acqpath"] =
  AttributeError "module 'peewee'" "NotFoundError".
Proof.
  exact (_fixup_filespec_failures
           Fixture.cedar
           (Many [SpecFile Fixture.file0; SpecStr "/test/acqpath"])
           Fixture.test_data (ValueError_path_elements ["acqpath"]) eq_refl).
Defined.

(** X10.  An ArchiveFile record given as a specification is passed on as
    it is, without any look-up: a list of records normalises to itself,
    whether or not the records are rows of the table of files. *)
Theorem _fixup_filespec_passes_records
        (self : FileManager) (db : Database) (fl : list ArchiveFile) :
  _fixup_filespec self (Many (map SpecFile fl)) db = Ok fl.
Proof.
  unfold _fixup_filespec.
  assert (H : forall out, fixup_loop self db (map SpecFile fl) out = Ok (out ++ fl)).
  { induction fl as [|f fl IH]; intros out; simpl.
    - now rewrite app_nil_r.
    - rewrite IH. now rewrite <- app_assoc. }
  apply (H []).
Qed.

(** X11.  A tuple resolves exactly when it has two elements and the table
    of files has a file of that name in an acquisition of that name; the
    file returned is such a file.  A tuple of another length fails with
    the ValueError that shows the tuple. *)
Theorem tuple_to_file_resolves (db : Database) (t : list string) :
  (forall f, tuple_to_file db t = Ok f ->
             exists acq name, t = [acq; name] /\ file_is_named db acq name f) /\
  (forall acq name g, t = [acq; name] -> file_is_named db acq name g ->
                      exists f, tuple_to_file db t = Ok f) /\
  (length t <> 2 -> tuple_to_file db t = Raise (ValueError_path_elements t)).
Proof.
  assert (Hnamed : forall acq name f,
             file_named db acq name f = true <->
             file_name f = name /\
             exists a, In a (acqs db) /\ acq_id a = file_acq f /\ acq_name a = acq).
  { intros acq name f. unfold file_named.
    rewrite andb_true_iff, existsb_exists, String.eqb_eq. split.
    - intros ((a & Hin & H) & Hn). split; [exact Hn|]. exists a.
      apply andb_prop in H as (Hi & Ha).
      apply Nat.eqb_eq in Hi. apply String.eqb_eq in Ha. auto.
    - intros (Hn & a & Hin & Hi & Ha). split; [|exact Hn].
      exists a. split; [exact Hin|].
      rewrite Hi, Ha, Nat.eqb_refl, String.eqb_refl. reflexivity. }
  split; [|split].
  - intros f H. pose proof (tuple_to_file_outcomes db t) as Ho. rewrite H in Ho.
    destruct Ho as (acq & name & -> & Hfind). exists acq, name.
    split; [reflexivity|].
    apply find_some in Hfind as (Hin & Hn). apply Hnamed in Hn.
    split; [exact Hin | exact Hn].
  - intros acq name g -> (Hin & Hn). unfold tuple_to_file, get. simpl.
    destruct (find (file_named db acq name) (files db)) as [f|] eqn:E;
      [now exists f|].
    apply (find_none _ _ E) in Hin.
    assert (Ht : file_named db acq name g = true) by now apply Hnamed.
    rewrite Ht in Hin. discriminate.
  - intros Hl. unfold tuple_to_file.
    destruct (length t =? 2)%nat eqn:E; [|reflexivity].
    apply Nat.eqb_eq in E. contradiction.
Qed.

Lemma tuple_to_file_resolves_witness :
  exists acq name,
    ["acqpath"; "file1"] = [acq; name] /\
    file_is_named Fixture.test_data acq name Fixture.file1.
Proof.
  destruct (tuple_to_file_resolves Fixture.test_data ["acqpath"; "file1"])
    as (H & _).
  exact (H Fixture.file1 eq_refl).
Defined.

(** ** Normalisation: paths *)

Lemma list_eqb_eq (a b : list string) : list_eqb a b = true <-> a = b.
Proof.
  revert b. induction a as [|x a IH]; intros [|y b]; simpl;
    try (split; [discriminate | discriminate]); [tauto|].
  rewrite andb_true_iff, String.eqb_eq, IH.
  split; [intros (-> & ->); reflexivity | intros H; injection H; auto].
Qed.

Lemma firstn_length_app {A} (a b : list A) : firstn (length a) (a ++ b) = a.
Proof. induction a as [|x a IH]; simpl; [reflexivity | now rewrite IH]. Qed.

Lemma skipn_length_app {A} (a b : list A) : skipn (length a) (a ++ b) = b.
Proof. induction a as [|x a IH]; simpl; [reflexivity | exact IH]. Qed.

Lemma relative_to_spec (p root q : Path) :
  relative_to p root = Ok q <->
  (parts root = [] -> anchor p = "") /\
  exists rest, parts p = parts root ++ rest /\ q = mkPath "" rest.
Proof.
  unfold relative_to.
  destruct (parts root) as [|r0 rs] eqn:Er.
  - simpl. destruct (anchor p =? "") eqn:Ea; simpl.
    + apply String.eqb_eq in Ea. split.
      * intros H. injection H as <-. split; [auto|]. now exists (parts p).
      * intros (_ & rest & -> & ->). reflexivity.
    + split; [discriminate|]. intros (H & _).
      rewrite (H eq_refl), String.eqb_refl in Ea. discriminate.
  - cbn [length Nat.eqb].
    destruct (list_eqb (firstn (S (length rs)) (parts p)) (r0 :: rs)) eqn:E;
      cbn [negb].
    + apply list_eqb_eq in E. split.
      * intros H. injection H as <-. split; [discriminate|].
        exists (skipn (S (length rs)) (parts p)). split; [|reflexivity].
        change (parts p = (r0 :: rs) ++ skipn (S (length rs)) (parts p)).
        rewrite <- E. symmetry. apply firstn_skipn.
      * intros (_ & rest & Hp & ->). rewrite Hp.
        change (S (length rs)) with (length (r0 :: rs)).
        now rewrite skipn_length_app.
    + split; [discriminate|]. intros (_ & rest & Hp & _).
      rewrite Hp in E. change (S (length rs)) with (length (r0 :: rs)) in E.
      rewrite firstn_length_app in E.
      assert (T : list_eqb (r0 :: rs) (r0 :: rs) = true) by now apply list_eqb_eq.
      rewrite T in E. discriminate.
Qed.

(** X12.  A path (given as a Path or as a string) resolves to a file
    exactly when its parts are the parts of the destination root followed
    by an acquisition name and a file name, and that pair resolves to the
    file: a path under the root and the pair of its last two components
    are the same file; a path that is not under the root, or has more or
    fewer than two components below it, resolves to nothing. *)
Theorem path_resolves_like_its_pair
        (self : FileManager) (db : Database) (p : Path) (f : ArchiveFile) :
  (fixup_one self db (SpecPath p) = Ok f <->
   (parts (root_path self) = [] -> anchor p = "") /\
   exists acq name,
     parts p = parts (root_path self) ++ [acq; name] /\
     fixup_one self db (SpecTuple [acq; name]) = Ok f) /\
  (forall s, fixup_one self db (SpecStr s) =
             fixup_one self db (SpecPath (Path_of_string s))).
Proof.
  split; [|reflexivity].
  unfold fixup_one, path_to_tuple, bool_of_method. fold (root_path self).
  split.
  - intros H.
    destruct (relative_to p (root_path self)) as [q|e] eqn:Er; [|discriminate].
    apply relative_to_spec in Er as (Ha & rest & Hp & ->).
    simpl in H. unfold parts in H. simpl in H.
    pose proof (tuple_to_file_outcomes db rest) as Ho. rewrite H in Ho.
    destruct Ho as (acq & name & -> & _).
    split; [exact Ha|]. now exists acq, name.
  - intros (Ha & acq & name & Hp & H).
    assert (Er : relative_to p (root_path self) = Ok (mkPath "" [acq; name])).
    { apply relative_to_spec. split; [exact Ha|]. now exists [acq; name]. }
    rewrite Er. exact H.
Qed.

Lemma path_resolves_like_its_pair_witness :
  fixup_one Fixture.cedar Fixture.test_data
            (SpecPath (mkPath "/" ["test"; "acqpath"; "file3"])) = Ok Fixture.file3.
Proof.
  destruct (path_resolves_like_its_pair
              Fixture.cedar Fixture.test_data
              (mkPath "/" ["test"; "acqpath"; "file3"]) Fixture.file3)
    as ((_ & H) & _).
  apply H. split; [discriminate|].
  exists "acqpath", "file3". split; reflexivity.
Defined.

Lemma string_app_assoc (a b c : string) :
  ((a ++ b) ++ c)%string = (a ++ (b ++ c))%string.
Proof. induction a as [|x a IH]; simpl; [reflexivity | now rewrite IH]. Qed.

Lemma split_sep_sep (s1 s2 : string) :
  forall cur,
    split_sep (s1 ++ String "/"%char s2) cur = split_sep s1 cur ++ split_sep s2 "".
Proof.
  induction s1 as [|c s1 IH]; intros cur; simpl; [reflexivity|].
  destruct (Ascii.eqb c "/"%char); simpl; now rewrite IH.
Qed.

Lemma split_sep_no_sep (s : string) :
  no_sep s = true -> forall cur, split_sep s cur = [(cur ++ s)%string].
Proof.
  induction s as [|c s IH]; intros H cur; simpl in *.
  - f_equal. induction cur as [|x cur IHc]; simpl; [reflexivity | now rewrite <- IHc].
  - apply andb_prop in H as (Hc & Hs).
    destruct (Ascii.eqb c "/"%char); [discriminate|].
    rewrite (IH Hs). now rewrite string_app_assoc.
Qed.

Lemma leading_seps_app (r t : string) :
  only_seps r = false ->
  leading_seps (r ++ t) = leading_seps r.
Proof.
  induction r as [|c r IH]; simpl; [discriminate|].
  destruct (Ascii.eqb c "/"%char); simpl; [|reflexivity].
  intros H. now rewrite IH.
Qed.

Lemma Path_of_string_join (r acq name : string) :
  only_seps r = false ->
  plain_name acq = true -> plain_name name = true ->
  parts (Path_of_string (r ++ "/" ++ acq ++ "/" ++ name)) =
  parts (Path_of_string r) ++ [acq; name].
Proof.
  intros Hr Ha Hn. unfold plain_name in Ha, Hn.
  apply andb_prop in Ha as (Ha & Ha3). apply andb_prop in Ha as (Ha1 & Ha2).
  apply andb_prop in Hn as (Hn & Hn3). apply andb_prop in Hn as (Hn1 & Hn2).
  unfold Path_of_string, parts. cbn [anchor names].
  rewrite (leading_seps_app r _ Hr).
  change (r ++ "/" ++ acq ++ "/" ++ name)%string
    with (r ++ String "/"%char (acq ++ String "/"%char name))%string.
  rewrite split_sep_sep, split_sep_sep, (split_sep_no_sep acq Ha1),
    (split_sep_no_sep name Hn1).
  rewrite !filter_app. cbn [filter append].
  apply negb_true_iff in Ha2, Ha3, Hn2, Hn3.
  rewrite Ha2, Ha3, Hn2, Hn3. cbn [orb negb app].
  destruct (match leading_seps r with 0 => "" | 2 => "//" | _ => "/" end =? "")%string;
    [reflexivity|].
  now rewrite app_comm_cons.
Qed.

(** X13.  Round trip on strings.  When the destination root has a
    character other than the separator, the string made of the root, a
    separator, an acquisition name, a separator and a file name (names
    without separator, neither empty nor a dot) normalises like the pair
    of the two names: to the same file, or with the same failure of the
    look-up. *)
Theorem root_joined_string_resolves_like_pair
        (self : FileManager) (db : Database) (acq name : string) :
  only_seps (node_root (_node self)) = false ->
  plain_name acq = true ->
  plain_name name = true ->
  fixup_one self db (SpecStr (node_root (_node self) ++ "/" ++ acq ++ "/" ++ name)) =
  fixup_one self db (SpecTuple [acq; name]).
Proof.
  intros Hr Ha Hn.
  pose proof (Path_of_string_join _ acq name Hr Ha Hn) as Hparts.
  assert (Hrel : relative_to
                   (Path_of_string (node_root (_node self) ++ "/" ++ acq ++ "/" ++ name))
                   (root_path self) = Ok (mkPath "" [acq; name])).
  { apply relative_to_spec. split.
    - intros Hnil. unfold root_path in Hnil.
      unfold Path_of_string at 1. cbn [anchor].
      rewrite (leading_seps_app _ _ Hr).
      unfold Path_of_string, parts in Hnil. cbn [anchor names] in Hnil.
      destruct (leading_seps (node_root (_node self))) as [|[|[|n]]];
        simpl in *; try reflexivity; discriminate.
    - exists [acq; name]. split; [exact Hparts | reflexivity]. }
  unfold fixup_one at 1, path_to_tuple, bool_of_method.
  fold (root_path self). rewrite Hrel. reflexivity.
Qed.

Lemma root_joined_string_resolves_like_pair_witness :
  fixup_one Fixture.cedar Fixture.test_data (SpecStr "/test/acqpath/file1") =
  fixup_one Fixture.cedar Fixture.test_data (SpecTuple ["acqpath"; "file1"]).
Proof.
  exact (root_joined_string_resolves_like_pair
           Fixture.cedar Fixture.test_data "acqpath" "file1"
           eq_refl eq_refl eq_refl).
Defined.

(** ** What reserve writes *)

Lemma reserve_effect_static (self : FileManager) (t : FileReservationTag)
      (g : ArchiveFile) (db : Database) :
  groups (reserve_effect self t g db) = groups db /\
  nodes (reserve_effect self t g db) = nodes db /\
  tags (reserve_effect self t g db) = tags db.
Proof.
  unfold reserve_effect, recall.
  destruct (has_reservation self db g);
    destruct (chosen_source self db g);
    destruct (has_copy_on_destination self db g);
    try match goal with |- context [is_some ?x] => destruct (is_some x) end;
    repeat split.
Qed.

Lemma reserve_effects_static (self : FileManager) (t : FileReservationTag)
      (fl : list ArchiveFile) :
  forall db,
    groups (reserve_effects self t fl db) = groups db /\
    nodes (reserve_effects self t fl db) = nodes db /\
    tags (reserve_effects self t fl db) = tags db.
Proof.
  induction fl as [|g fl IH]; intros db; simpl; [repeat split|].
  destruct (IH (reserve_effect self t g db)) as (-> & -> & ->).
  apply reserve_effect_static.
Qed.

(* the database that a call of reserve leaves, case by case *)
Lemma reserve_database (self : FileManager) (files : FilesArg)
      (check_only verbose : bool) (db : Database) :
  fst (reserve self files check_only verbose db) = db \/
  exists t fl p, check_only = false /\ _tag self = Some t /\
                 _fixup_filespec self files db = Ok fl /\
                 reserve self files check_only verbose db =
                 (reserve_effects self t fl db,
                  Ok (mkOutcome (forallb (has_copy_on_destination self db) fl) p)).
Proof.
  destruct check_only; [left; apply reserve_check_only_frame|].
  destruct (_fixup_filespec self files db) as [fl|e] eqn:Hfix.
  - destruct (_tag self) as [t|] eqn:Ht.
    + right. 
      destruct (reserve_tagged_eq self t files verbose db fl Ht Hfix) as (p & E).
      exists t, fl, p. auto.
    + left. rewrite reserve_unfold, Hfix. destruct fl as [|f fl].
      * reflexivity.
      * now rewrite (for_each_no_tag self _ f fl db Ht).
  - left. rewrite reserve_unfold, Hfix. reflexivity.
Qed.

Lemma reserve_extends (self : FileManager) (files : FilesArg)
      (check_only verbose : bool) (db : Database) :
  extends db (fst (reserve self files check_only verbose db)).
Proof.
  destruct (reserve_database self files check_only verbose db)
    as [->|(t & fl & p & _ & _ & _ & ->)]; [apply extends_refl|].
  apply reserve_effects_extends.
Qed.

(** X14.  Whatever its arguments, reserve only appends rows to the tables
    of reservations and of transfer requests: the rows that were there
    stay, in their order, and the tables of groups, nodes, acquisitions,
    files, copies and tags are left as they were. *)
Theorem reserve_only_appends
        (self : FileManager) (files : FilesArg) (check_only verbose : bool)
        (db : Database) :
  only_appends db (fst (reserve self files check_only verbose db)).
Proof.
  pose proof (reserve_extends self files check_only verbose db)
    as (Ha & Hf & Hc & Hr & Hq).
  assert (Hs : groups (fst (reserve self files check_only verbose db)) = groups db /\
               nodes (fst (reserve self files check_only verbose db)) = nodes db /\
               tags (fst (reserve self files check_only verbose db)) = tags db).
  { destruct (reserve_database self files check_only verbose db)
      as [->|(t & fl & p & _ & _ & _ & ->)]; [repeat split|].
    apply reserve_effects_static. }
  destruct Hs as (Hg & Hn & Ht).
  unfold only_appends. tauto.
Qed.



(** ** What reserve creates, file by file *)

(** X16.  With a tag in use, a call of reserve that is not check-only
    creates, for each file, at most one reservation record and at most
    one transfer request, however often the file is listed: one
    reservation exactly when the file is listed and was not reserved, and
    one request exactly when the file is listed, is not on the
    destination, is on a source, and has no matching request yet. *)
Theorem reserve_creates_what_is_due
        (self : FileManager) (t : FileReservationTag) (files : FilesArg)
        (verbose : bool) (db : Database) (fl : list ArchiveFile)
        (f : ArchiveFile) :
  _tag self = Some t ->
  _fixup_filespec self files db = Ok fl ->
  length (reservations_of f (fst (reserve self files false verbose db))) =
    length (reservations_of f db) +
    one_if (mentions fl f && reservation_due self db f) /\
  length (requests_of f (fst (reserve self files false verbose db))) =
    length (requests_of f db) +
    one_if (mentions fl f && recall_due self db f).
Proof.
  intros Ht Hfix.
  destruct (reserve_tagged_eq self t files verbose db fl Ht Hfix) as (p & ->).
  apply (loop_count self t Ht f fl db).
Qed.

Lemma reserve_creates_what_is_due_witness :
  length (reservations_of Fixture.file3
            (fst (reserve Fixture.cedar
                    (Many [SpecFile Fixture.file3; SpecFile Fixture.file3])
                    false false Fixture.test_data))) =
    length (reservations_of Fixture.file3 Fixture.test_data) +
    one_if (mentions [Fixture.file3; Fixture.file3] Fixture.file3 &&
            reservation_due Fixture.cedar Fixture.test_data Fixture.file3) /\
  length (requests_of Fixture.file3
            (fst (reserve Fixture.cedar
                    (Many [SpecFile Fixture.file3; SpecFile Fixture.file3])
                    false false Fixture.test_data))) =
    length (requests_of Fixture.file3 Fixture.test_data) +
    one_if (mentions [Fixture.file3; Fixture.file3] Fixture.file3 &&
            recall_due Fixture.cedar Fixture.test_data Fixture.file3).
Proof.
  exact (reserve_creates_what_is_due
           Fixture.cedar Fixture.tag1
           (Many [SpecFile Fixture.file3; SpecFile Fixture.file3])
           false Fixture.test_data [Fixture.file3; Fixture.file3]
           Fixture.file3 eq_refl eq_refl).
Defined.

Lemma filter_appended_same_length {A} (p : A -> bool) (l l' x : list A) :
  l' = l ++ x ->
  length (filter p l') = length (filter p l) + 0 ->
  filter p l' = filter p l.
Proof.
  intros -> H. rewrite filter_app in *. rewrite length_app in H.
  assert (Hx : length (filter p x) = 0) by lia.
  destruct (filter p x); [apply app_nil_r | discriminate].
Qed.

(** X17.  What reserve never does, with a tag in use.  It creates no
    transfer request for a file that is on the destination, nor for a
    file that no source holds; it creates no reservation for a file that
    is reserved already; and it creates neither for a file that is not in
    the list: the rows of such a file are after the call what they were
    before. *)
Theorem reserve_never_creates
        (self : FileManager) (t : FileReservationTag) (files : FilesArg)
        (verbose : bool) (db : Database) (fl : list ArchiveFile)
        (f : ArchiveFile) :
  _tag self = Some t ->
  _fixup_filespec self files db = Ok fl ->
  (has_copy_on_destination self db f = true \/ chosen_source self db f = None ->
   requests_of f (fst (reserve self files false verbose db)) = requests_of f db) /\
  (has_reservation self db f = true ->
   reservations_of f (fst (reserve self files false verbose db)) =
   reservations_of f db) /\
  (mentions fl f = false ->
   reservations_of f (fst (reserve self files false verbose db)) =
   reservations_of f db /\
   requests_of f (fst (reserve self files false verbose db)) = requests_of f db).
Proof.
  intros Ht Hfix.
  destruct (reserve_tagged_eq self t files verbose db fl Ht Hfix) as (p & ->).
  cbn [fst].
  destruct (loop_count self t Ht f fl db) as (Hr & Hq).
  destruct (reserve_effects_extends self t fl db)
    as (_ & _ & _ & (rs & Ers) & (qs & Eqs)).
  unfold reservations_of, requests_of in *.
  split; [|split].
  - intros H. apply (filter_appended_same_length _ _ _ qs Eqs).
    rewrite Hq. f_equal. unfold recall_due.
    destruct H as [-> | ->]; [|now rewrite andb_false_r].
    destruct (chosen_source self db f); simpl; now rewrite andb_false_r.
  - intros H. apply (filter_appended_same_length _ _ _ rs Ers).
    rewrite Hr. unfold reservation_due. rewrite H. simpl.
    now rewrite andb_false_r.
  - intros H. rewrite H in Hr, Hq. simpl in Hr, Hq. split.
    + now apply (filter_appended_same_length _ _ _ rs Ers).
    + now apply (filter_appended_same_length _ _ _ qs Eqs).
Qed.

Lemma reserve_never_creates_witness :
  requests_of Fixture.file1
    (fst (reserve Fixture.cedar (Many [SpecFile Fixture.file1; SpecFile Fixture.file4])
                  false false Fixture.test_data)) =
  requests_of Fixture.file1 Fixture.test_data /\
  requests_of Fixture.file4
    (fst (reserve Fixture.cedar (Many [SpecFile Fixture.file1; SpecFile Fixture.file4])
                  false false Fixture.test_data)) =
  requests_of Fixture.file4 Fixture.test_data.
Proof.
  split.
  - destruct (reserve_never_creates
                Fixture.cedar Fixture.tag1
                (Many [SpecFile Fixture.file1; SpecFile Fixture.file4])
                false Fixture.test_data [Fixture.file1; Fixture.file4]
                Fixture.file1 eq_refl eq_refl) as (H & _).
    apply H. left. reflexivity.
  - destruct (reserve_never_creates
                Fixture.cedar Fixture.tag1
                (Many [SpecFile Fixture.file1; SpecFile Fixture.file4])
                false Fixture.test_data [Fixture.file1; Fixture.file4]
                Fixture.file4 eq_refl eq_refl) as (H & _).
    apply H. right. reflexivity.
Defined.

(** X18.  Repeating a call of reserve at once writes nothing more,
    whatever the arguments: the second call leaves the database as the
    first left it, and returns the boolean, or raises the exception, of
    the first. *)
Theorem reserve_repeated_writes_nothing
        (self : FileManager) (files : FilesArg) (check_only verbose : bool)
        (db : Database) :
  let db1 := fst (reserve self files check_only verbose db) in
  fst (reserve self files check_only verbose db1) = db1 /\
  returned_or_raised (snd (reserve self files check_only verbose db1)) =
  returned_or_raised (snd (reserve self files check_only verbose db)).
Proof.
  cbv zeta.
  destruct (reserve_database self files check_only verbose db)
    as [E|(t & fl & p & -> & Ht & Hfix & E)].
  - rewrite E. split; [exact E | reflexivity].
  - rewrite E. cbn [fst snd returned_or_raised returned].
    pose proof (reserve_effects_extends self t fl db) as Hext.
    assert (Hfix1 : _fixup_filespec self files (reserve_effects self t fl db) = Ok fl)
      by now rewrite (fixup_extends self files _ _ Hext).
    destruct (reserve_tagged_eq self t files verbose _ fl Ht Hfix1) as (p2 & E2).
    rewrite (reserve_effects_settled_id self t fl (reserve_effects self t fl db)) in E2
      by (intros g Hg; now apply reserve_effects_settle).
    rewrite E2. cbn [fst snd returned_or_raised returned].
    split; [reflexivity|].
    now rewrite (forallb_has_copy_extends self db _ fl Hext).
Qed.

(** ** The rows that reserve writes *)

Lemma chosen_source_in_sources (self : FileManager) (db : Database)
      (g : ArchiveFile) (src : nat) :
  chosen_source self db g = Some src -> in_sources self src = true.
Proof.
  unfold chosen_source. intros H.
  destruct (find (copy_on g (in_sources self)) (copies db)) as [c|] eqn:E;
    [|discriminate].
  injection H as <-. apply find_some in E as (_ & Hc).
  unfold copy_on in Hc. apply andb_prop in Hc as (Hc & _).
  now apply andb_prop in Hc.
Qed.

Lemma reserve_effects_rows (self : FileManager) (t : FileReservationTag)
      (db0 : Database) (fl : list ArchiveFile) :
  forall db,
    extends db0 db ->
    exists rs qs,
      reservations (reserve_effects self t fl db) = reservations db ++ rs /\
      requests (reserve_effects self t fl db) = requests db ++ qs /\
      Forall (reservation_of_call self t fl) rs /\
      Forall (request_of_call self db0 fl) qs.
Proof.
  induction fl as [|g fl IH]; intros db Hext; simpl.
  - exists [], []. rewrite !app_nil_r. repeat split; constructor.
  - pose proof (reserve_effect_extends self t g db) as Hstep.
    destruct (IH (reserve_effect self t g db) (extends_trans _ _ _ Hext Hstep))
      as (rs & qs & Er & Eq & Hrs & Hqs).
    exists (new_reservation self t g db ++ rs), (new_request self g db ++ qs).
    rewrite Er, Eq, reserve_effect_reservations, reserve_effect_requests,
      <- !app_assoc.
    split; [reflexivity|]. split; [reflexivity|]. split.
    + apply Forall_app. split.
      * unfold new_reservation. destruct (has_reservation self db g);
          constructor; [|constructor].
        repeat split. exists g. split; [now left | reflexivity].
      * eapply Forall_impl; [|exact Hrs].
        intros r (Hn & Htag & f & Hin & Hf). repeat split; auto.
        exists f. split; [now right | exact Hf].
    + apply Forall_app. split.
      * unfold new_request.
        destruct (chosen_source self db g) as [src|] eqn:Es; [|constructor].
        destruct (has_copy_on_destination self db g || has_request self g src db)
          eqn:Ec; constructor; [|constructor].
        apply orb_false_elim in Ec as (Hp & _).
        repeat split; simpl; try reflexivity.
        -- now apply (chosen_source_in_sources self db g).
        -- exists g. split; [now left|]. split; [reflexivity|].
           rewrite <- (extends_has_copy self _ _ Hext g),
                   <- (extends_chosen_source self _ _ Hext g).
           auto.
      * eapply Forall_impl; [|exact Hqs].
        intros q (H1 & H2 & H3 & H4 & H5 & H6 & H7 & f & Hin & Hf).
        repeat split; auto. exists f. split; [now right | exact Hf].
Qed.

(** X19.  With a tag in use, the rows appended by a call of reserve are
    its own.  Every new reservation is on the destination of the manager,
    under the tag in use, for a file of the list.  Every new transfer
    request is for a file of the list that the destination has not, goes
    from the source chosen for that file, one of the sources of the
    manager, to the group of the destination, and carries the neutral
    values: nice 0, not cancelled, not completed, no attempt, timestamp
    0. *)
Theorem reserve_writes_its_own_rows
        (self : FileManager) (t : FileReservationTag) (files : FilesArg)
        (verbose : bool) (db : Database) (fl : list ArchiveFile) :
  _tag self = Some t ->
  _fixup_filespec self files db = Ok fl ->
  exists rs qs,
    reservations (fst (reserve self files false verbose db)) =
      reservations db ++ rs /\
    requests (fst (reserve self files false verbose db)) = requests db ++ qs /\
    Forall (reservation_of_call self t fl) rs /\
    Forall (request_of_call self db fl) qs.
Proof.
  intros Ht Hfix.
  destruct (reserve_tagged_eq self t files verbose db fl Ht Hfix) as (p & ->).
  apply (reserve_effects_rows self t db fl db (extends_refl db)).
Qed.

Lemma reserve_writes_its_own_rows_witness :
  exists rs qs,
    reservations (fst (reserve Fixture.cedar
                         (Many [SpecFile Fixture.file1; SpecFile Fixture.file2])
                         false false Fixture.test_data)) =
      reservations Fixture.test_data ++ rs /\
    requests (fst (reserve Fixture.cedar
                     (Many [SpecFile Fixture.file1; SpecFile Fixture.file2])
                     false false Fixture.test_data)) =
      requests Fixture.test_data ++ qs /\
    Forall (reservation_of_call Fixture.cedar Fixture.tag1
              [Fixture.file1; Fixture.file2]) rs /\
    Forall (request_of_call Fixture.cedar Fixture.test_data
              [Fixture.file1; Fixture.file2]) qs.
Proof.
  exact (reserve_writes_its_own_rows
           Fixture.cedar Fixture.tag1
           (Many [SpecFile Fixture.file1; SpecFile Fixture.file2])
           false Fixture.test_data [Fixture.file1; Fixture.file2]
           eq_refl eq_refl).
Defined.

(** ** reserve together with the queries *)

Lemma has_reservation_matching (self : FileManager) (t : FileReservationTag)
      (db : Database) (f : ArchiveFile) :
  _tag self = Some t ->
  has_reservation self db f = true ->
  matching_reservations self [t] db f <> [].
Proof.
  intros Ht H. unfold has_reservation in H.
  apply existsb_exists in H as (r & Hin & Hr).
  unfold reserved_by in Hr. rewrite Ht in Hr.
  apply andb_prop in Hr as (Hr & Hn). apply andb_prop in Hr as (Hf & Htag).
  assert (Hm : In r (matching_reservations self [t] db f)).
  { unfold matching_reservations. apply filter_In. split; [exact Hin|].
    rewrite Hf, Hn. unfold tag_in. simpl.
    rewrite Nat.eqb_sym, Htag. reflexivity. }
  intros E. rewrite E in Hm. destruct Hm.
Qed.

Lemma all_reserved_files_In (self : FileManager) (t : FileReservationTag)
      (db : Database) :
  _tag self = Some t ->
  exists l, all_reserved_files self None db = Ok l /\
            forall f, In f l <->
                      In f (files db) /\ matching_reservations self [t] db f <> [].
Proof.
  intros Ht. unfold all_reserved_files, _autotags. simpl. rewrite Ht. simpl.
  eexists. split; [reflexivity|]. intros f.
  fold (matching_reservations self [t] db).
  rewrite in_flat_map. split.
  - intros (g & Hg & Hin). apply in_map_iff in Hin as (r & <- & Hr).
    split; [exact Hg|]. intros E.
    change (In r (matching_reservations self [t] db g)) in Hr.
    rewrite E in Hr. destruct Hr.
  - intros (Hf & Hne). exists f. split; [exact Hf|].
    change (In f (map (fun _ => f) (matching_reservations self [t] db f))).
    destruct (matching_reservations self [t] db f) as [|r m]; [now elim Hne|].
    now left.
Qed.

(** X20.  reserve and all_reserved_files go together.  With a tag in use,
    after a call of reserve that is not check-only, every file of the
    list that is a row of the table of files is listed by
    all_reserved_files for the tag in use, and so is every file that was
    listed before the call. *)
Theorem reserved_files_are_listed
        (self : FileManager) (t : FileReservationTag) (specs : FilesArg)
        (verbose : bool) (db : Database) (fl : list ArchiveFile) :
  _tag self = Some t ->
  _fixup_filespec self specs db = Ok fl ->
  exists before after,
    all_reserved_files self None db = Ok before /\
    all_reserved_files self None (fst (reserve self specs false verbose db)) =
      Ok after /\
    (forall f, In f fl -> In f (files db) -> In f after) /\
    (forall f, In f before -> In f after).
Proof.
  intros Ht Hfix.
  destruct (reserve_tagged_eq self t specs verbose db fl Ht Hfix) as (p & ->).
  cbn [fst].
  pose proof (reserve_effects_extends self t fl db) as Hext.
  destruct (all_reserved_files_In self t db Ht) as (before & Eb & Hb).
  destruct (all_reserved_files_In self t (reserve_effects self t fl db) Ht)
    as (after & Ea & Ha).
  exists before, after. split; [exact Eb|]. split; [exact Ea|].
  destruct Hext as (_ & Hfiles & _ & (rs & Hrs) & _).
  split.
  - intros f Hin Hf. apply Ha.
    split; [now rewrite Hfiles|].
    apply (has_reservation_matching self t _ f Ht).
    apply settled_has_reservation. now apply reserve_effects_settle.
  - intros f Hin. apply Hb in Hin as (Hf & Hne). apply Ha.
    split; [now rewrite Hfiles|].
    unfold matching_reservations in *. rewrite Hrs, filter_app.
    intros E. apply app_eq_nil in E as (E & _). contradiction.
Qed.

Lemma reserved_files_are_listed_witness :
  exists before after,
    all_reserved_files Fixture.cedar None Fixture.test_data = Ok before /\
    all_reserved_files Fixture.cedar None
      (fst (reserve Fixture.cedar (Many [SpecFile Fixture.file2; SpecFile Fixture.file4])
                    false false Fixture.test_data)) = Ok after /\
    (forall f, In f [Fixture.file2; Fixture.file4] ->
               In f (files Fixture.test_data) -> In f after) /\
    (forall f, In f before -> In f after).
Proof.
  exact (reserved_files_are_listed
           Fixture.cedar Fixture.tag1
           (Many [SpecFile Fixture.file2; SpecFile Fixture.file4])
           false Fixture.test_data [Fixture.file2; Fixture.file4]
           eq_refl eq_refl).
Defined.

Lemma check_only_value (self : FileManager) (files : FilesArg) (db : Database) :
  snd (reserve self files true false db) =
  match _fixup_filespec self files db with
  | Ok fl => Ok (mkOutcome (forallb (has_copy_on_destination self db) fl) None)
  | Raise e => Raise e
  end.
Proof.
  rewrite reserve_unfold.
  destruct (_fixup_filespec self files db) as [fl|e]; [|reflexivity].
  destruct (for_each_check_only self fl true [] db) as (states & -> & _).
  reflexivity.
Qed.

(** X21.  is_reserved tells the presence of the file, not its
    reservation: a call of reserve, by any manager, with any arguments
    and in any mode, leaves the answer of is_reserved for every
    specification as it was. *)
Theorem is_reserved_unchanged_by_reserve
        (self other : FileManager) (files : FilesArg) (check_only verbose : bool)
        (db : Database) (file : FilesArg) :
  snd (is_reserved self file
         (fst (reserve other files check_only verbose db))) =
  snd (is_reserved self file db).
Proof.
  pose proof (reserve_extends other files check_only verbose db) as Hext.
  unfold is_reserved. rewrite !check_only_value.
  rewrite (fixup_extends self file _ _ Hext).
  destruct (_fixup_filespec self file db) as [fl|e]; [|reflexivity].
  now rewrite (forallb_has_copy_extends self db _ fl Hext).
Qed.

(** ** The report *)

Lemma defaultdict_add_sum (d : list (string * Z)) (key : string) (v : Z) :
  sum_values (defaultdict_add d key v) = (sum_values d + v)%Z.
Proof.
  unfold sum_values.
  induction d as [|[k x] d IH]; simpl; [lia|].
  destruct (k =? key); simpl; [lia|]. rewrite IH. lia.
Qed.

Lemma defaultdict_add_keys (d1 d2 : list (string * Z)) (key : string) (v1 v2 : Z) :
  map fst d1 = map fst d2 ->
  map fst (defaultdict_add d1 key v1) = map fst (defaultdict_add d2 key v2).
Proof.
  revert d2. induction d1 as [|[k x] d1 IH]; intros [|[k2 x2] d2] H; simpl in *;
    try discriminate; [reflexivity|].
  injection H as -> H.
  destruct (k2 =? key); simpl; [now rewrite H|].
  now rewrite (IH d2 H).
Qed.

Lemma defaultdict_add_In (d : list (string * Z)) (key : string) (v : Z) (k : string) :
  In k (map fst (defaultdict_add d key v)) <-> In k (map fst d) \/ k = key.
Proof.
  induction d as [|[k0 x] d IH]; simpl.
  - intuition.
  - destruct (k0 =? key) eqn:E; simpl.
    + apply String.eqb_eq in E. subst. intuition.
    + rewrite IH. intuition.
Qed.

Lemma defaultdict_add_NoDup (d : list (string * Z)) (key : string) (v : Z) :
  NoDup (map fst d) -> NoDup (map fst (defaultdict_add d key v)).
Proof.
  induction d as [|[k0 x] d IH]; intros H; simpl.
  - constructor; [intros F; destruct F | constructor].
  - inversion H as [|? ? Hnotin Hnd]; subst.
    destruct (k0 =? key) eqn:E; simpl; [now constructor|].
    constructor; [|now apply IH].
    rewrite defaultdict_add_In. intros [Hin | ->]; [contradiction|].
    now rewrite String.eqb_refl in E.
Qed.

Lemma defaultdict_get_all (d : list (string * Z)) :
  NoDup (map fst d) ->
  map (defaultdict_get d) (map fst d) = map snd d.
Proof.
  induction d as [|[k x] d IH]; intros H; simpl; [reflexivity|].
  inversion H as [|? ? Hnotin Hnd]; subst.
  unfold defaultdict_get at 1. simpl. rewrite String.eqb_refl. simpl.
  f_equal. rewrite <- (IH Hnd). apply map_ext_in.
  intros k' Hin. unfold defaultdict_get. simpl.
  destruct (k =? k') eqn:E; [|reflexivity].
  apply String.eqb_eq in E. subst. contradiction.
Qed.

Lemma totals_invariant (check_only : bool) (states : States) :
  forall ft bt,
    map fst ft = map fst bt -> NoDup (map fst ft) ->
    let tot := fold_left
                 (fun tot fs =>
                    let name := _state_name (snd fs) check_only in
                    (defaultdict_add (fst tot) name 1,
                     defaultdict_add (snd tot) name (size_b (fst fs))))
                 states (ft, bt) in
    map fst (fst tot) = map fst (snd tot) /\
    NoDup (map fst (fst tot)) /\
    sum_values (fst tot) = (sum_values ft + Z.of_nat (length states))%Z /\
    sum_values (snd tot) = (sum_values bt + sum_sizes states)%Z.
Proof.
  induction states as [|[f st] states IH]; intros ft bt Hk Hnd; cbv zeta; simpl.
  - unfold sum_sizes. simpl. repeat split; auto; lia.
  - destruct (IH (defaultdict_add ft (_state_name st check_only) 1)
                 (defaultdict_add bt (_state_name st check_only) (size_b f))
                 (defaultdict_add_keys _ _ _ _ _ Hk)
                 (defaultdict_add_NoDup _ _ _ Hnd)) as (H1 & H2 & H3 & H4).
    cbv zeta in H1, H2, H3, H4. simpl in H1, H2, H3, H4.
    rewrite defaultdict_add_sum in H3, H4.
    split; [exact H1|]. split; [exact H2|].
    unfold sum_sizes in *. simpl. split; lia.
Qed.

Lemma table_data_sums (states : States) (check_only : bool) :
  NoDup (labels (table_data states check_only)) /\
  sum_files (table_data states check_only) = Z.of_nat (length states) /\
  sum_bytes (table_data states check_only) = sum_sizes states.
Proof.
  unfold table_data, labels, sum_files, sum_bytes.
  destruct (totals_invariant check_only states [] [] eq_refl (NoDup_nil _))
    as (Hk & Hnd & Hf & Hb).
  cbv zeta in Hk, Hnd, Hf, Hb.
  set (tot := fold_left _ states ([], [])) in *.
  rewrite !map_map. cbn [fst snd].
  split; [exact Hnd|]. split.
  - exact Hf.
  - change (sum_values [] + sum_sizes states)%Z with (sum_sizes states) in Hb.
    rewrite <- Hb. unfold sum_values. f_equal.
    rewrite <- (map_map fst (defaultdict_get (snd tot))), Hk.
    apply defaultdict_get_all. now rewrite <- Hk.
Qed.

(** X22.  The table of the verbose report adds up.  Whatever the states
    remembered, its rows have distinct labels, the numbers of files of
    its rows sum to the number of files remembered, and the bytes of its
    rows sum to the total size of those files. *)
Theorem table_data_totals (states : States) (check_only : bool) :
  NoDup (labels (table_data states check_only)) /\
  sum_files (table_data states check_only) = Z.of_nat (length states) /\
  sum_bytes (table_data states check_only) = sum_sizes states.
Proof. apply table_data_sums. Qed.

Lemma reserve_step_states (self : FileManager) (check_only : bool)
      (result : bool) (states : States) (f : ArchiveFile) (db db' : Database)
      (acc' : bool * States) :
  reserve_step self check_only (result, states) f db = (db', Ok acc') ->
  snd acc' = dict_set states f (remembered_state self check_only f db).
Proof.
  intros H. destruct check_only.
  - rewrite reserve_step_check_only in H. now injection H as _ <-.
  - destruct (_tag self) as [t|] eqn:Ht.
    + rewrite (reserve_step_tagged self t _ _ _ _ Ht) in H. now injection H as _ <-.
    + rewrite (reserve_step_no_tag self _ f db Ht) in H. discriminate.
Qed.

Lemma dict_set_keys (states : States) (f : ArchiveFile) (st : CopyState) :
  NoDup (keys states) ->
  NoDup (keys (dict_set states f st)) /\
  forall i, In i (keys (dict_set states f st)) <-> In i (keys states) \/ i = file_id f.
Proof.
  unfold keys. induction states as [|[k v] d IH]; intros Hnd; simpl.
  - split; [constructor; [intros F; destruct F | constructor] | intuition].
  - inversion Hnd as [|? ? Hnotin Hnd']; subst.
    destruct (IH Hnd') as (IH1 & IH2).
    destruct (file_id k =? file_id f)%nat eqn:E; simpl.
    + apply Nat.eqb_eq in E. split; [now constructor|]. intros i.
      intuition congruence.
    + split.
      * constructor; [|exact IH1]. rewrite IH2. intros [Hin|Heq]; [contradiction|].
        rewrite Heq, Nat.eqb_refl in E. discriminate.
      * intros i. rewrite IH2. intuition.
Qed.

Lemma for_each_keys (self : FileManager) (check_only : bool) (fl : list ArchiveFile) :
  forall result states db db' acc',
    for_each (reserve_step self check_only) (result, states) fl db = (db', Ok acc') ->
    NoDup (keys states) ->
    NoDup (keys (snd acc')) /\
    forall i, In i (keys (snd acc')) <-> In i (keys states) \/ In i (map file_id fl).
Proof.
  induction fl as [|f fl IH]; intros result states db db' acc' H Hnd; simpl in H.
  - unfold ret in H. injection H as _ <-. simpl. split; [exact Hnd | intuition].
  - unfold bind in H.
    destruct (reserve_step self check_only (result, states) f db)
      as [db1 [[r1 s1]|e]] eqn:E; [|discriminate].
    apply reserve_step_states in E. simpl in E. subst s1.
    destruct (dict_set_keys states f (remembered_state self check_only f db) Hnd)
      as (Hnd1 & Hin1).
    destruct (IH _ _ _ _ _ H Hnd1) as (Hnd2 & Hin2).
    split; [exact Hnd2|]. intros i. rewrite Hin2, Hin1. simpl. intuition.
Qed.

(** X23.  The verbose report counts every file once.  When reserve
    returns in verbose mode, the numbers of files of the rows of the
    printed table sum to the number of distinct files of the normalised
    list: a file listed several times is counted once. *)
Theorem report_counts_each_file_once
        (self : FileManager) (files : FilesArg) (check_only : bool)
        (db db' : Database) (out : Outcome) (fl : list ArchiveFile) :
  reserve self files check_only true db = (db', Ok out) ->
  _fixup_filespec self files db = Ok fl ->
  exists T, printed out = Some T /\
            sum_files T = Z.of_nat (length (distinct_files fl)) /\
            NoDup (labels T).
Proof.
  intros H Hfix. rewrite reserve_unfold, Hfix in H.
  destruct (for_each (reserve_step self check_only) (@pair bool States true []) fl db)
    as [d [acc|e]] eqn:E; [|discriminate].
  injection H as _ <-. cbn [printed].
  eexists. split; [reflexivity|].
  destruct (table_data_sums (snd acc) check_only) as (Hl & Hs & _).
  split; [|exact Hl]. rewrite Hs. f_equal.
  destruct (for_each_keys self check_only fl _ _ _ _ _ E (NoDup_nil _))
    as (Hnd & Hin).
  rewrite <- (length_map (fun kv => file_id (fst kv)) (snd acc)).
  fold (keys (snd acc)). unfold distinct_files.
  apply Nat.le_antisymm; apply NoDup_incl_length; auto using NoDup_nodup.
  - intros i Hi. apply nodup_In. apply Hin in Hi as [F|Hi]; [destruct F | exact Hi].
  - intros i Hi. apply nodup_In in Hi. apply Hin. now right.
Qed.

Lemma report_counts_each_file_once_witness :
  exists T,
    printed (mkOutcome false
               (Some [("Unreserved, available", 1%Z, 123456789%Z);
                      ("Unreserved, present", 1%Z, 123456789%Z)])) = Some T /\
    sum_files T =
      Z.of_nat (length (distinct_files
                          [Fixture.file2; Fixture.file2; Fixture.file0])) /\
    NoDup (labels T).
Proof.
  exact (report_counts_each_file_once
           Fixture.cedar
           (Many [SpecFile Fixture.file2; SpecFile Fixture.file2;
                  SpecFile Fixture.file0])
           true Fixture.test_data Fixture.test_data _
           [Fixture.file2; Fixture.file2; Fixture.file0] eq_refl eq_refl).
Defined.

(** X24.  The label under which an iteration of reserve remembers a file
    is read off the tables as they are before the iteration.  Its first
    part is Previously reserved when the file had a reservation,
    otherwise Unreserved when only checking and Newly reserved when not.
    Its second part is present when the destination has the file;
    otherwise recalling when the iteration created a transfer request,
    available when a source has the file but no request was created
    (check-only, or a matching request was there), and missing when no
    source has it. *)
Theorem reserve_step_label
        (self : FileManager) (check_only result : bool) (states : States)
        (f : ArchiveFile) (db db' : Database) (acc' : bool * States) :
  reserve_step self check_only (result, states) f db = (db', Ok acc') ->
  exists state,
    snd acc' = dict_set states f state /\
    _state_name state check_only =
    (label_prefix self check_only db f ++ label_suffix self check_only db f)%string.
Proof.
  intros H. apply reserve_step_states in H.
  exists (remembered_state self check_only f db). split; [exact H|].
  unfold remembered_state, label_prefix, label_suffix, has_request.
  destruct (chosen_source self db f) as [src|].
  - rewrite existsb_find.
    destruct (is_some (find (fun q => request_matches q (recall_request self f src))
                            (requests db)));
      destruct (has_copy_on_destination self db f);
      destruct (has_reservation self db f);
      destruct check_only; reflexivity.
  - destruct (has_copy_on_destination self db f);
      destruct (has_reservation self db f);
      destruct check_only; reflexivity.
Qed.

Lemma reserve_step_label_witness :
  exists state,
    [(Fixture.file2, 10%Z)] = dict_set [] Fixture.file2 state /\
    _state_name state false =
    (label_prefix Fixture.cedar false Fixture.test_data Fixture.file2 ++
     label_suffix Fixture.cedar false Fixture.test_data Fixture.file2)%string.
Proof.
  exact (reserve_step_label Fixture.cedar false true [] Fixture.file2
                            Fixture.test_data _ (false, [(Fixture.file2, 10%Z)])
                            eq_refl).
Defined.

(** ** cli.py: the choice of the editor *)

(** X25.  get_editor fails exactly when neither CFM_EDITOR nor EDITOR is
    set and the terminal is dumb; a terminal is dumb when TERM has dumb
    in it, and also when TERM is not set.  On a terminal that is not dumb
    it always returns an editor, and it falls back to vi, with a notice
    on the standard error, exactly when none of CFM_EDITOR, VISUAL and
    EDITOR is set. *)
Theorem get_editor_fails_only_on_dumb_terminal (environ : Environ) :
  ((exists message, get_editor environ = Fails message) <->
   environ "CFM_EDITOR" = None /\ environ "EDITOR" = None /\
   terminal_is_dumb environ = true) /\
  ((exists notice, get_editor environ = Returns [notice] "vi") <->
   environ "CFM_EDITOR" = None /\ environ "VISUAL" = None /\
   environ "EDITOR" = None /\ terminal_is_dumb environ = false) /\
  (environ "TERM" = None -> terminal_is_dumb environ = true).
Proof.
  unfold get_editor.
  destruct (environ "CFM_EDITOR") as [c|];
    destruct (terminal_is_dumb environ) eqn:Ed;
    destruct (environ "VISUAL") as [v|];
    destruct (environ "EDITOR") as [e|]; cbn [negb];
    (split; [|split]);
    try (split; [intros (m & H); discriminate H
                | intros (H1 & H2 & H3); try discriminate;
                  try (destruct H3; discriminate)]);
    try (split; [intros (m & H); discriminate H | intros H; decompose [and] H; discriminate]);
    try (split; [intros _; repeat split | intros _; eexists; reflexivity]);
    try (intros Ht; unfold terminal_is_dumb in *; rewrite Ht in *;
         first [reflexivity | discriminate]).
Qed.

Lemma get_editor_fails_only_on_dumb_terminal_witness :
  exists message,
    get_editor (fun n => if n =? "VISUAL" then Some "gvim" else None) =
    Fails message.
Proof.
  destruct (get_editor_fails_only_on_dumb_terminal
              (fun n => if n =? "VISUAL" then Some "gvim" else None))
    as ((_ & H) & _).
  apply H. repeat split.
Defined.

(** X26.  The order of preference of get_editor.  CFM_EDITOR, when set,
    is the editor returned, whatever else is set.  On a dumb terminal
    VISUAL plays no part: setting it, changing it or unsetting it leaves
    the outcome as it was.  On a terminal that is not dumb, and without
    CFM_EDITOR, VISUAL when set is returned, even when EDITOR is set
    too. *)
Theorem get_editor_preference (environ : Environ) :
  (forall editor, environ "CFM_EDITOR" = Some editor ->
                  get_editor environ = Returns [] editor) /\
  (terminal_is_dumb environ = true ->
   forall value, get_editor (setenv environ "VISUAL" value) = get_editor environ) /\
  (forall editor, environ "CFM_EDITOR" = None ->
                  terminal_is_dumb environ = false ->
                  environ "VISUAL" = Some editor ->
                  get_editor environ = Returns [] editor).
Proof.
  split; [|split].
  - intros editor H. unfold get_editor. now rewrite H.
  - intros Hd value.
    assert (Hd' : terminal_is_dumb (setenv environ "VISUAL" value) = true)
      by exact Hd.
    unfold get_editor. rewrite Hd, Hd'. reflexivity.
  - intros editor Hc Hd Hv. unfold get_editor. now rewrite Hc, Hd, Hv.
Qed.

Lemma get_editor_preference_witness :
  get_editor (fun n => if n =? "CFM_EDITOR" then Some "emacs"
                       else if n =? "EDITOR" then Some "nano" else None) =
  Returns [] "emacs".
Proof.
  destruct (get_editor_preference
              (fun n => if n =? "CFM_EDITOR" then Some "emacs"
                        else if n =? "EDITOR" then Some "nano" else None))
    as (H & _).
  exact (H "emacs" eq_refl).
Defined.
